(** * BayesWorkshop: the model, prior, likelihood and posterior functions
    of the two notebooks, the cells that generate the synthetic data, the
    objective of the minimisation, the starting positions of the walkers
    and the posterior predictive loops.

    Sources: [zeus_Parameter_Inference.ipynb] (module [Zeus]) and
    [arianna_Model_Selection.ipynb] (module [Arianna]).

    Numbers.  The notebooks compute with numpy's float64.  Here a float64 is
    either a real number or one of the three special values the code itself
    produces and tests for ([-np.inf], [np.isfinite]): the special values
    follow the IEEE-754 rules, the finite ones are exact reals (rounding,
    overflow and the sign of zero are not represented).

    Arrays.  An array is a list.  numpy creates an array of a requested
    shape only if the platform can hold it: the calls of [np.random] that
    take a shape ask the interface of the generator whether the shape is
    refused, and raise numpy's error if it is. *)

From Stdlib Require Import Reals Lra List ZArith Lia Bool Permutation.
Import ListNotations.

Local Open Scope R_scope.

(** ** Exceptions and results *)

Inductive exn : Type :=
| ValueError
| MemoryError.

Inductive result (A : Type) : Type :=
| Ok (a : A)
| Raise (e : exn).

Arguments Ok {A} a.
Arguments Raise {A} e.

Definition bind {A B : Type} (m : result A) (k : A -> result B) : result B :=
  match m with
  | Ok a => k a
  | Raise e => Raise e
  end.

Declare Scope py_scope.
Delimit Scope py_scope with py.

Notation "x <- m ;; k" := (bind m (fun x => k))
  (at level 61, m at next level, right associativity) : py_scope.

(** ** The part of numpy the notebooks use *)

Module NumPy.

(** *** Scalars *)

Inductive float64 : Type :=
| Num (r : R)
| PosInf
| NegInf
| NaN.

Definition Rltb (a b : R) : bool := if Rlt_dec a b then true else false.
Definition Reqb (a b : R) : bool := if Req_dec_T a b then true else false.

Definition inf_of_sign (neg : bool) : float64 := if neg then NegInf else PosInf.

(** [x < y]; every comparison with [NaN] is false. *)
Definition lt (x y : float64) : bool :=
  match x, y with
  | Num a, Num b => Rltb a b
  | NegInf, Num _ | NegInf, PosInf | Num _, PosInf => true
  | _, _ => false
  end.

Definition gt (x y : float64) : bool := lt y x.

Definition neg (x : float64) : float64 :=
  match x with
  | Num a => Num (- a)
  | PosInf => NegInf
  | NegInf => PosInf
  | NaN => NaN
  end.

(** [np.abs] *)
Definition abs (x : float64) : float64 :=
  match x with
  | Num a => Num (Rabs a)
  | PosInf | NegInf => PosInf
  | NaN => NaN
  end.

Definition add (x y : float64) : float64 :=
  match x, y with
  | NaN, _ | _, NaN => NaN
  | Num a, Num b => Num (a + b)
  | PosInf, NegInf | NegInf, PosInf => NaN
  | PosInf, _ | _, PosInf => PosInf
  | NegInf, _ | _, NegInf => NegInf
  end.

Definition sub (x y : float64) : float64 := add x (neg y).

(** An infinity of sign [s] times, or divided by, the finite [b]. *)
Definition scale_inf (s : bool) (b : R) : float64 :=
  if Rltb b 0 then inf_of_sign (negb s) else inf_of_sign s.

Definition mul (x y : float64) : float64 :=
  match x, y with
  | NaN, _ | _, NaN => NaN
  | Num a, Num b => Num (a * b)
  | PosInf, Num b | Num b, PosInf => if Reqb b 0 then NaN else scale_inf false b
  | NegInf, Num b | Num b, NegInf => if Reqb b 0 then NaN else scale_inf true b
  | PosInf, PosInf | NegInf, NegInf => PosInf
  | PosInf, NegInf | NegInf, PosInf => NegInf
  end.

(** Division of arrays and numpy scalars does not raise on a zero divisor:
    it yields an infinity, or [NaN] for [0/0] (the zero is read as [+0.0]). *)
Definition div (x y : float64) : float64 :=
  match x, y with
  | NaN, _ | _, NaN => NaN
  | Num a, Num b =>
      if Reqb b 0
      then (if Reqb a 0 then NaN else inf_of_sign (Rltb a 0))
      else Num (a / b)
  | Num _, PosInf | Num _, NegInf => Num 0
  | PosInf, Num b => scale_inf false b
  | NegInf, Num b => scale_inf true b
  | _, _ => NaN
  end.

(** [x ** 2]: numpy squares by multiplying. *)
Definition square (x : float64) : float64 := mul x x.

(** [np.sin] *)
Definition sin (x : float64) : float64 :=
  match x with
  | Num a => Num (Rtrigo_def.sin a)
  | _ => NaN
  end.

(** [np.pi] *)
Definition pi : float64 := Num PI.

(** [np.inf] *)
Definition inf : float64 := PosInf.

(** [np.isfinite] *)
Definition isfinite (x : float64) : bool :=
  match x with
  | Num _ => true
  | _ => false
  end.

(** *** Scalars and one-dimensional arrays *)

Inductive value : Type :=
| Scalar (x : float64)
| Array (xs : list float64).

(** A function applied elementwise ([np.sin], [** 2]). *)
Definition ufunc (f : float64 -> float64) (v : value) : value :=
  match v with
  | Scalar x => Scalar (f x)
  | Array xs => Array (map f xs)
  end.

Fixpoint zip_with (f : float64 -> float64 -> float64) (xs ys : list float64)
  : list float64 :=
  match xs, ys with
  | x :: xs', y :: ys' => f x y :: zip_with f xs' ys'
  | _, _ => []
  end.

(** A binary operator applied with numpy's broadcasting: a scalar, or an
    array of one element, is stretched along the other operand; two arrays
    of other, different lengths do not broadcast. *)
Definition broadcast (f : float64 -> float64 -> float64) (u v : value)
  : result value :=
  match u, v with
  | Scalar a, Scalar b => Ok (Scalar (f a b))
  | Scalar a, Array bs => Ok (Array (map (f a) bs))
  | Array xs, Scalar b => Ok (Array (map (fun a => f a b) xs))
  | Array xs, Array bs =>
      if Nat.eqb (length xs) (length bs) then Ok (Array (zip_with f xs bs))
      else match xs, bs with
           | [a], _ => Ok (Array (map (f a) bs))
           | _, [b] => Ok (Array (map (fun a => f a b) xs))
           | _, _ => Raise ValueError
           end
  end.

(** [v.sum()] *)
Definition sum (v : value) : float64 :=
  match v with
  | Scalar x => x
  | Array xs => fold_right add (Num 0) xs
  end.

(** *** Expressions

    An expression evaluates to a value or raises.  Parameters and constants
    enter an expression as scalars, arrays as themselves. *)

Definition expr : Type := result value.

Definition const (x : float64) : expr := Ok (Scalar x).
Definition var (v : value) : expr := Ok v.

Definition lift2 (f : float64 -> float64 -> float64) (x y : expr) : expr :=
  (u <- x ;; v <- y ;; broadcast f u v)%py.

Definition lift1 (f : float64 -> float64) (x : expr) : expr :=
  (u <- x ;; Ok (ufunc f u))%py.

(** [x.sum()] *)
Definition sum_of (x : expr) : result float64 :=
  (u <- x ;; Ok (sum u))%py.

(** [np.sin(x)] and [x ** 2] *)
Definition sin_of (x : expr) : expr := lift1 sin x.
Definition pow2 (x : expr) : expr := lift1 square x.

Coercion const : float64 >-> expr.
Coercion var : value >-> expr.

(** *** Arrays of two and three dimensions, as nested rows *)

Definition matrix : Type := list (list float64).
Definition tensor3 : Type := list matrix.

(** A scalar combined with every entry ([c * m], [c + m]). *)
Definition map2d (f : float64 -> float64) (m : matrix) : matrix :=
  map (map f) m.

Definition map3d (f : float64 -> float64) (m : tensor3) : tensor3 :=
  map (map2d f) m.

(** [x + m] for a one-dimensional [x] and a matrix [m] of [ncols] columns:
    [x] is added to every row when the lengths agree, a length of 1 on
    either side is stretched, and other lengths do not broadcast. *)
Definition row_plus_matrix (x : list float64) (ncols : nat) (m : matrix)
  : result matrix :=
  if Nat.eqb (length x) ncols then Ok (map (zip_with add x) m)
  else match x with
       | [a] => Ok (map2d (add a) m)
       | _ =>
           if Nat.eqb ncols 1
           then Ok (map (fun r => map (fun a => add a (hd NaN r)) x) m)
           else Raise ValueError
       end.

End NumPy.

Declare Scope np_scope.
Delimit Scope np_scope with np.

Notation "x + y" := (NumPy.lift2 NumPy.add x y) : np_scope.
Notation "x - y" := (NumPy.lift2 NumPy.sub x y) : np_scope.
Notation "x * y" := (NumPy.lift2 NumPy.mul x y) : np_scope.
Notation "x / y" := (NumPy.lift2 NumPy.div x y) : np_scope.

(** ** [np.random]: the global generator

    The generator itself (numpy's Mersenne Twister and the transformations
    that turn its words into uniform and normal deviates) is a library
    component; the cells only seed it and draw from it.  It enters as an
    interface: a state, the state a seed initialises, and the two draws.
    With it comes what numpy answers when asked for a new array of a given
    shape: it refuses a shape too large for the platform (a [ValueError]
    where a dimension or the size in bytes does not fit a machine word, a
    [MemoryError] where the memory is not there), and never refuses the
    empty array of one dimension. *)

Module Random.
Import NumPy.

Record RandomState : Type := {
  state : Type;
  init_by_seed : Z -> state;
  random_sample : state -> R * state;
  gauss : state -> R * state;
  refuses : list Z -> option exn;
  accepts_empty : refuses [0%Z] = None
}.

Section Global.
Context (G : RandomState).

(** A computation that reads and advances the global generator. *)
Definition M (A : Type) : Type := state G -> result A * state G.

Definition ret {A : Type} (a : A) : M A := fun st => (Ok a, st).

Definition lift {A : Type} (r : result A) : M A := fun st => (r, st).

Definition bindM {A B : Type} (m : M A) (k : A -> M B) : M B :=
  fun st =>
    match m st with
    | (Ok a, st') => k a st'
    | (Raise e, st') => (Raise e, st')
    end.

(** [np.random.seed(s)]: the state is replaced by the one the seed
    determines; a seed outside [0, 2**32 - 1] is refused. *)
Definition seed (s : Z) : M unit :=
  fun st =>
    if ((0 <=? s) && (s <? 2 ^ 32))%Z then (Ok tt, init_by_seed G s)
    else (Raise ValueError, st).

Fixpoint uniform_draws (low high : R) (n : nat) (st : state G)
  : list float64 * state G :=
  match n with
  | O => ([], st)
  | S n' =>
      let (u, st1) := random_sample G st in
      let (xs, st2) := uniform_draws low high n' st1 in
      (Num (low + (high - low) * u) :: xs, st2)
  end.

(** [np.random.uniform(low, high, size=size)]: a negative size is refused,
    and so is a size too large for the platform, before anything is drawn;
    size 0 gives the empty array. *)
Definition uniform (low high : R) (size : Z) : M value :=
  fun st =>
    if (size <? 0)%Z then (Raise ValueError, st)
    else match refuses G [size] with
         | Some e => (Raise e, st)
         | None =>
             let (xs, st') := uniform_draws low high (Z.to_nat size) st in
             (Ok (Array xs), st')
         end.

Definition normal_draw (scale loc : float64) (st : state G)
  : float64 * state G :=
  let (g, st') := gauss G st in (add loc (mul scale (Num g)), st').

Fixpoint normal_draws (scale : float64) (locs : list float64) (st : state G)
  : list float64 * state G :=
  match locs with
  | [] => ([], st)
  | loc :: locs' =>
      let (x, st1) := normal_draw scale loc st in
      let (xs, st2) := normal_draws scale locs' st1 in
      (x :: xs, st2)
  end.

(** [np.random.normal(loc, scale)]: one deviate per element of [loc], in
    order; a negative scale is refused. *)
Definition normal (loc : value) (scale : float64) : M value :=
  fun st =>
    if lt scale (Num 0) then (Raise ValueError, st)
    else match loc with
         | Scalar m =>
             let (x, st') := normal_draw scale m st in (Ok (Scalar x), st')
         | Array ms =>
             let (xs, st') := normal_draws scale ms st in (Ok (Array xs), st')
         end.

(** Repeated draws, in order. *)
Fixpoint draw_many {A : Type} (draw : state G -> A * state G) (n : nat)
  (st : state G) : list A * state G :=
  match n with
  | O => ([], st)
  | S n' =>
      let (x, st1) := draw st in
      let (xs, st2) := draw_many draw n' st1 in
      (x :: xs, st2)
  end.

Definition standard_normal (st : state G) : float64 * state G :=
  let (g, st') := gauss G st in (Num g, st').

(** [np.random.randn(d0, d1)] and [np.random.randn(d0, d1, d2)]: standard
    normal deviates, drawn row by row; a negative dimension is refused, and
    so is a shape too large for the platform. *)
Definition randn2 (d0 d1 : Z) : M matrix :=
  fun st =>
    if ((d0 <? 0) || (d1 <? 0))%Z then (Raise ValueError, st)
    else match refuses G [d0; d1] with
         | Some e => (Raise e, st)
         | None =>
             let (m, st') :=
               draw_many (draw_many standard_normal (Z.to_nat d1)) (Z.to_nat d0) st in
             (Ok m, st')
         end.

Definition randn3 (d0 d1 d2 : Z) : M tensor3 :=
  fun st =>
    if ((d0 <? 0) || (d1 <? 0) || (d2 <? 0))%Z then (Raise ValueError, st)
    else match refuses G [d0; d1; d2] with
         | Some e => (Raise e, st)
         | None =>
             let (m, st') :=
               draw_many (draw_many (draw_many standard_normal (Z.to_nat d2))
                                    (Z.to_nat d1)) (Z.to_nat d0) st in
             (Ok m, st')
         end.

End Global.

Arguments ret {G A} a.
Arguments lift {G A} r.
Arguments bindM {G A B} m k.
Arguments seed {G} s.
Arguments uniform {G} low high size.
Arguments draw_many {G A} draw n st.
Arguments standard_normal {G} st.
Arguments randn2 {G} d0 d1.
Arguments randn3 {G} d0 d1 d2.
Arguments normal {G} loc scale.

End Random.

Declare Scope rnd_scope.
Delimit Scope rnd_scope with rnd.

Notation "x <- m ;; k" := (Random.bindM m (fun x => k))
  (at level 61, m at next level, right associativity) : rnd_scope.

(** ** zeus_Parameter_Inference.ipynb *)

Module Zeus.
Import NumPy.

Definition sine_model (params : list float64) (t : value) : result value :=
  match params with
  | [A; B; P; t0] => (A * sin_of ((t / P + t0) * Num 2 * pi) + B)%np
  | _ => Raise ValueError
  end.

(** The two cells that make the data, with the constants they assign
    ([n_data], the seed, the bounds of the time domain, [params_true],
    [yerr]) as arguments. *)
Section Data.
Context {G : Random.RandomState}.

Definition times_cell (seed n_data : Z) (low high : R) : Random.M G value :=
  (_ <- Random.seed seed ;;
   Random.uniform low high n_data)%rnd.

Definition values_cell (params_true : list float64) (yerr : float64)
  (t : value) : Random.M G value :=
  (y_true <- Random.lift (sine_model params_true t) ;;
   Random.normal y_true yerr)%rnd.

Definition generate (seed n_data : Z) (low high : R)
  (params_true : list float64) (yerr : float64)
  : Random.M G (value * value) :=
  (t <- times_cell seed n_data low high ;;
   y <- values_cell params_true yerr t ;;
   Random.ret (t, y))%rnd.

End Data.

Definition n_data : Z := 50.
Definition params_true : list float64 := [Num 4.3; Num 1.0; Num 3.1; Num 0.4].
Definition yerr : float64 := Num 1.0.

(** The cells as the notebook runs them. *)
Definition notebook_data {G : Random.RandomState} : Random.M G (value * value) :=
  generate 42 n_data 0 5 params_true yerr.

Definition log_prior (params : list float64) : result float64 :=
  match params with
  | [A; B; P; t0] =>
      if gt (abs B) (Num 10.0) || lt A (Num 0.1) || gt A (Num 100.0)
         || lt P (Num 0.3) || gt P (Num 10.0)
         || lt t0 (Num 0.0) || gt t0 (Num 1.0)
      then Ok (neg inf)
      else Ok (Num 0.0)
  | _ => Raise ValueError
  end.

(** [log_like] and [log_post] read the arrays [t] and [y] of the notebook. *)
Section Globals.
Variables t y : value.

Definition log_like (params : list float64) : result float64 :=
  (y_model <- sine_model params t ;;
   s <- sum_of (pow2 ((y_model - y) / yerr)%np) ;;
   Ok (mul (Num (-0.5)) s))%py.

Definition log_post (params : list float64) : result float64 :=
  (lp <- log_prior params ;;
   if negb (isfinite lp) then Ok (neg inf)
   else (ll <- log_like params ;; Ok (add lp ll)))%py.

(** The objective handed to [minimize]: [lambda x : -log_post(x)]. *)
Definition objective (x : list float64) : result float64 :=
  (lp <- log_post x ;; Ok (neg lp))%py.

End Globals.

(** The initial guess of the minimisation. *)
Definition p_guess : list float64 := [Num 10.0; Num 2.0; Num 4.0; Num 0.5].

Definition ndim : Z := 4.
Definition nwalkers : Z := 10.

Section Sampling.
Context {G : Random.RandomState}.

(** [start = results.x + 0.001 * np.random.randn(nwalkers, ndim)], with the
    optimum [results.x] and the two sizes as arguments. *)
Definition start (x : list float64) (nwalkers ndim : Z) : Random.M G matrix :=
  (noise <- Random.randn2 nwalkers ndim ;;
   Random.lift (row_plus_matrix x (Z.to_nat ndim)
                  (map2d (mul (Num 0.001)) noise)))%rnd.

(** The loop of the posterior predictive check: one simulated data set per
    sample of the chain, appended to [obs]. *)
Fixpoint predictive_loop (chain : list (list float64)) (t_range : value)
  (obs : list value) : Random.M G (list value) :=
  match chain with
  | [] => Random.ret obs
  | s :: chain' =>
      (m <- Random.lift (sine_model s t_range) ;;
       o <- Random.normal m yerr ;;
       predictive_loop chain' t_range (obs ++ [o]))%rnd
  end.

Definition posterior_predictive (chain : list (list float64)) (t_range : value)
  : Random.M G (list value) :=
  predictive_loop chain t_range [].

End Sampling.

End Zeus.

(** ** arianna_Model_Selection.ipynb *)

Module Arianna.
Import NumPy.

Definition model_A (params : list float64) (t : value) : result value :=
  match params with
  | [A; B; P; t0] => (A * sin_of ((t / P + t0) * Num 2 * pi) + B)%np
  | _ => Raise ValueError
  end.

Definition model_B (params : list float64) (t : value) : result value :=
  match params with
  | [B] => (Num 0 * t + B)%np
  | _ => Raise ValueError
  end.

(** The cell that makes the data, with its constants as arguments. *)
Section Data.
Context {G : Random.RandomState}.

Definition generate (seed n_data : Z) (low high : R)
  (params_true : list float64) (yerr : float64)
  : Random.M G (value * value) :=
  (_ <- Random.seed seed ;;
   t <- Random.uniform low high n_data ;;
   y_true <- Random.lift (model_A params_true t) ;;
   y <- Random.normal y_true yerr ;;
   Random.ret (t, y))%rnd.

End Data.

Definition n_data : Z := 50.
Definition params_true : list float64 := [Num 1.0; Num 1.0; Num 3.0; Num 0.0].
Definition yerr : float64 := Num 1.0.

(** The cell as the notebook runs it. *)
Definition notebook_data {G : Random.RandomState} : Random.M G (value * value) :=
  generate 42 n_data 0 5 params_true yerr.

Definition log_prior_A (params : list float64) : result float64 :=
  match params with
  | [A; B; P; t0] =>
      if gt (abs B) (Num 10.0) || lt A (Num 0.1) || gt A (Num 100.0)
         || lt P (Num 0.3) || gt P (Num 10.0)
         || lt t0 (Num 0.0) || gt t0 (Num 1.0)
      then Ok (neg inf)
      else Ok (Num 0.0)
  | _ => Raise ValueError
  end.

Definition log_prior_B (params : list float64) : result float64 :=
  match params with
  | [B] => if gt (abs B) (Num 10.0) then Ok (neg inf) else Ok (Num 0.0)
  | _ => Raise ValueError
  end.

Section Globals.
Variables t y : value.

Definition log_like_A (params : list float64) : result float64 :=
  (y_model <- model_A params t ;;
   s <- sum_of (pow2 ((y_model - y) / yerr)%np) ;;
   Ok (mul (Num (-0.5)) s))%py.

Definition log_like_B (params : list float64) : result float64 :=
  (y_model <- model_B params t ;;
   s <- sum_of (pow2 ((y_model - y) / yerr)%np) ;;
   Ok (mul (Num (-0.5)) s))%py.

End Globals.

Definition ntemps : Z := 40.
Definition nwalkers : Z := 4.
Definition ndim_A : Z := 4.
Definition ndim_B : Z := 1.

Section Sampling.
Context {G : Random.RandomState}.

(** [0.5 + 0.001 * np.random.randn(ntemps, nwalkers, ndim)]: the form of
    both [start_A] and [start_B]. *)
Definition start (ntemps nwalkers ndim : Z) : Random.M G tensor3 :=
  (noise <- Random.randn3 ntemps nwalkers ndim ;;
   Random.ret (map3d (add (Num 0.5)) (map3d (mul (Num 0.001)) noise)))%rnd.

Definition start_A : Random.M G tensor3 := start ntemps nwalkers ndim_A.
Definition start_B : Random.M G tensor3 := start ntemps nwalkers ndim_B.

(** The two loops of the posterior predictive check, one per model, run
    one after the other on the samples of each model. *)
Fixpoint predictive_loop (model : list float64 -> value -> result value)
  (samples : list (list float64)) (t_range : value) (obs : list value)
  : Random.M G (list value) :=
  match samples with
  | [] => Random.ret obs
  | s :: samples' =>
      (m <- Random.lift (model s t_range) ;;
       o <- Random.normal m yerr ;;
       predictive_loop model samples' t_range (obs ++ [o]))%rnd
  end.

Definition posterior_predictive (samples_A samples_B : list (list float64))
  (t_range : value) : Random.M G (list value * list value) :=
  (obs_A <- predictive_loop model_A samples_A t_range [] ;;
   obs_B <- predictive_loop model_B samples_B t_range [] ;;
   Random.ret (obs_A, obs_B))%rnd.

End Sampling.

End Arianna.

(** * The vocabulary of the statements *)

Import NumPy.

(** The declared bounds of the four parameters, closed at both ends. *)
Definition in_bounds_A (A B P t0 : R) : Prop :=
  0.1 <= A <= 100.0 /\ -10.0 <= B <= 10.0 /\ 0.3 <= P <= 10.0 /\ 0.0 <= t0 <= 1.0.

Definition in_bounds_B (B : R) : Prop := -10.0 <= B <= 10.0.

(** Some component sits exactly on one end of its bound. *)
Definition on_endpoint (A B P t0 : R) : Prop :=
  A = 0.1 \/ A = 100.0 \/ B = 10.0 \/ B = -10.0 \/
  P = 0.3 \/ P = 10.0 \/ t0 = 0.0 \/ t0 = 1.0.

(** The test both four-parameter priors make. *)
Definition outside_test (A B P t0 : float64) : bool :=
  gt (abs B) (Num 10.0) || lt A (Num 0.1) || gt A (Num 100.0)
  || lt P (Num 0.3) || gt P (Num 10.0)
  || lt t0 (Num 0.0) || gt t0 (Num 1.0).

(** The periodic and the constant model at one time, as formulas on
    scalars. *)
Definition sine_at (A B P t0 ti : float64) : float64 :=
  add (mul A (sin (mul (mul (add (div ti P) t0) (Num 2)) pi))) B.

Definition offset_at (B ti : float64) : float64 := add (mul (Num 0) ti) B.

(** A model, at fixed parameters, vectorizes: on a sequence of times it
    returns a sequence of the same length, whose element [i] is what the
    model returns on the time [i] alone. *)
Definition vectorizes (model : value -> result value) : Prop :=
  forall ts : list float64,
  exists ys : list float64,
    model (Array ts) = Ok (Array ys) /\
    length ys = length ts /\
    forall (i : nat) (d : float64),
      (i < length ts)%nat ->
      model (Scalar (nth i ts d)) = Ok (Scalar (nth i ys d)).

(** An observation set: the (time, value) pairs, in order.  The notebooks
    keep it as the two arrays [t] and [y]. *)
Definition observation_set : Type := list (float64 * float64).

Definition times (obs : observation_set) : value := Array (map fst obs).
Definition values (obs : observation_set) : value := Array (map snd obs).

(** An observation set whose times and values are real numbers. *)
Definition real_obs (robs : list (R * R)) : observation_set :=
  map (fun ob => (Num (fst ob), Num (snd ob))) robs.

(** What a model predicts at one time: the model function itself, called on
    a scalar time. *)
Definition predict (model : list float64 -> value -> result value)
  (params : list float64) (ti : float64) : float64 :=
  match model params (Scalar ti) with
  | Ok (Scalar m) => m
  | _ => NaN
  end.

(** The squared standardized residual of one observation. *)
Definition sq_residual (model : list float64 -> value -> result value)
  (params : list float64) (sigma : float64) (ob : float64 * float64) : float64 :=
  square (div (sub (predict model params (fst ob)) (snd ob)) sigma).

(** -0.5 times the sum, over the observations, of the squared standardized
    residuals, and nothing else. *)
Definition neg_half_sum_sq (model : list float64 -> value -> result value)
  (params : list float64) (sigma : float64) (obs : observation_set) : float64 :=
  mul (Num (-0.5))
      (fold_right add (Num 0) (map (sq_residual model params sigma) obs)).

(** The sum of squared residuals of the periodic model, over the reals. *)
Definition sine_rss (A B P t0 : R) (robs : list (R * R)) : R :=
  fold_right Rplus 0
    (map (fun ob =>
            Rsqr ((A * Rtrigo_def.sin ((fst ob / P + t0) * 2 * PI) + B - snd ob) / 1.0))
         robs).

(** The seeds [np.random.seed] accepts. *)
Definition valid_seed (seed : Z) : Prop := (0 <= seed < 2 ^ 32)%Z.

(** A refusal of the shapes with a dimension, or a number of elements, of
    2**60 or more: those whose size in bytes, at 8 bytes an element, does
    not fit a signed 64-bit word. *)
Definition too_large (shape : list Z) : option exn :=
  if (existsb (fun d => 2 ^ 60 <=? d) shape
      || (2 ^ 60 <=? fold_right Z.mul 1 shape))%Z
  then Some ValueError else None.

(** A small congruential generator, standing in for numpy's where a cell
    is run on concrete inputs. *)
Definition lcg : Random.RandomState :=
  {| Random.state := Z;
     Random.init_by_seed := fun s => (s mod 65537)%Z;
     Random.random_sample :=
       fun st => (IZR (st mod 64) / 64, ((75 * st + 74) mod 65537)%Z);
     Random.gauss :=
       fun st => (IZR (st mod 64) / 16 - 2, ((75 * st + 74) mod 65537)%Z);
     Random.refuses := too_large;
     Random.accepts_empty := eq_refl |}.




(** The successive outputs of a draw from a state, and the state they
    leave behind. *)
Fixpoint outputs {S : Type} (draw : S -> R * S) (n : nat) (st : S) : list R :=
  match n with
  | O => []
  | S n' => fst (draw st) :: outputs draw n' (snd (draw st))
  end.

Fixpoint advance {S : Type} (draw : S -> R * S) (n : nat) (st : S) : S :=
  match n with
  | O => st
  | S n' => advance draw n' (snd (draw st))
  end.


(** The sum of the squares of a list of reals, and their mean. *)
Definition sum_sq (xs : list R) : R := fold_right Rplus 0 (map Rsqr xs).

Definition mean (xs : list R) : R := fold_right Rplus 0 xs / INR (length xs).

(** A row of an array of two dimensions has [n] entries. *)
Definition row_of_length (n : nat) (v : value) : Prop :=
  exists xs : list float64, v = Array xs /\ length xs = n.

(** A sample the model accepts on the times [ts], and one it does not
    unpack. *)
Definition accepted (model : list float64 -> value -> result value)
  (ts : list float64) (s : list float64) : Prop :=
  exists ys : list float64,
    model s (Array ts) = Ok (Array ys) /\ length ys = length ts.

Definition refused (model : list float64 -> value -> result value)
  (ts : list float64) (s : list float64) : Prop :=
  model s (Array ts) = Raise ValueError.

(** Every normal deviate the generator returns is at most [M] in absolute
    value. *)
Definition deviates_bounded (G : Random.RandomState) (M : R) : Prop :=
  forall st : Random.state G, Rabs (fst (Random.gauss G st)) <= M.

(** A finite entry that is a real number within [d] of [c]. *)
Definition within (d c : R) (x : float64) : Prop :=
  exists r : R, x = Num r /\ Rabs (r - c) <= d.

(** * Properties *)

(** ** Comparisons and sums of finite numbers *)

Lemma Rltb_true (a b : R) : a < b -> Rltb a b = true.
Proof.
  intros H. unfold Rltb. destruct (Rlt_dec a b); [reflexivity | contradiction].
Qed.

Lemma Rltb_false (a b : R) : b <= a -> Rltb a b = false.
Proof.
  intros H. unfold Rltb. destruct (Rlt_dec a b); [lra | reflexivity].
Qed.

Lemma Rltb_false_inv (a b : R) : Rltb a b = false -> b <= a.
Proof.
  unfold Rltb. destruct (Rlt_dec a b); [discriminate | lra].
Qed.

Lemma Reqb_false (a b : R) : a <> b -> Reqb a b = false.
Proof.
  intros H. unfold Reqb. destruct (Req_dec_T a b); [contradiction | reflexivity].
Qed.

Lemma Reqb_refl (a : R) : Reqb a a = true.
Proof.
  unfold Reqb. destruct (Req_dec_T a a); [reflexivity | contradiction].
Qed.

(** Addition does not depend on the order of its operands, so the value of
    a sum over an array does not depend on the order numpy adds it in. *)
Lemma add_comm (x y : float64) : add x y = add y x.
Proof.
  destruct x, y; simpl; try reflexivity.
  f_equal; apply Rplus_comm.
Qed.

Lemma add_assoc (x y z : float64) : add x (add y z) = add (add x y) z.
Proof.
  destruct x, y, z; simpl; try reflexivity.
  f_equal; symmetry; apply Rplus_assoc.
Qed.

Lemma sum_permutation (xs ys : list float64) :
  Permutation xs ys -> sum (Array xs) = sum (Array ys).
Proof.
  induction 1 as [| x xs ys _ IH | x y xs | xs ys zs _ IH1 _ IH2]; simpl in *.
  - reflexivity.
  - now rewrite IH.
  - rewrite !add_assoc. f_equal. apply add_comm.
  - now rewrite IH1.
Qed.

Lemma sum_of_reals (l : list R) :
  fold_right add (Num 0) (map Num l) = Num (fold_right Rplus 0 l).
Proof.
  induction l as [| x l IH]; simpl; [reflexivity |].
  now rewrite IH.
Qed.

(** ** The priors *)

Lemma abs_gt_false (B : R) :
  in_bounds_B B -> gt (abs (Num B)) (Num 10.0) = false.
Proof.
  unfold in_bounds_B, gt; simpl. intros H. apply Rltb_false.
  unfold Rabs. destruct (Rcase_abs B); lra.
Qed.

Lemma abs_gt_true (B : R) :
  ~ in_bounds_B B -> gt (abs (Num B)) (Num 10.0) = true.
Proof.
  unfold in_bounds_B, gt; simpl. intros H. apply Rltb_true.
  unfold Rabs. destruct (Rcase_abs B); lra.
Qed.

Lemma abs_gt_false_inv (B : R) :
  gt (abs (Num B)) (Num 10.0) = false -> in_bounds_B B.
Proof.
  unfold in_bounds_B, gt; simpl. intros H. apply Rltb_false_inv in H.
  unfold Rabs in H. destruct (Rcase_abs B); lra.
Qed.

Lemma outside_test_false (A B P t0 : R) :
  in_bounds_A A B P t0 -> outside_test (Num A) (Num B) (Num P) (Num t0) = false.
Proof.
  intros (HA & HB & HP & Ht). unfold outside_test.
  rewrite (abs_gt_false B HB). unfold gt; simpl.
  rewrite !Rltb_false by lra. reflexivity.
Qed.

Lemma outside_test_false_inv (A B P t0 : R) :
  outside_test (Num A) (Num B) (Num P) (Num t0) = false -> in_bounds_A A B P t0.
Proof.
  unfold outside_test. intros E. rewrite !orb_false_iff in E.
  destruct E as [[[[[[EB EA1] EA2] EP1] EP2] Et1] Et2].
  apply abs_gt_false_inv in EB.
  unfold gt, lt in *.
  apply Rltb_false_inv in EA1, EA2, EP1, EP2, Et1, Et2.
  unfold in_bounds_A, in_bounds_B in *. lra.
Qed.

Lemma outside_test_true (A B P t0 : R) :
  ~ in_bounds_A A B P t0 -> outside_test (Num A) (Num B) (Num P) (Num t0) = true.
Proof.
  intros H.
  destruct (outside_test (Num A) (Num B) (Num P) (Num t0)) eqn:E; [reflexivity |].
  exfalso. apply H, outside_test_false_inv, E.
Qed.

Lemma log_prior_test (A B P t0 : float64) :
  Zeus.log_prior [A; B; P; t0]
  = if outside_test A B P t0 then Ok (neg inf) else Ok (Num 0.0).
Proof. reflexivity. Qed.

Lemma log_prior_inside (A B P t0 : R) :
  in_bounds_A A B P t0 ->
  Zeus.log_prior [Num A; Num B; Num P; Num t0] = Ok (Num 0.0).
Proof.
  intros H. now rewrite log_prior_test, (outside_test_false A B P t0 H).
Qed.

Lemma log_prior_outside (A B P t0 : R) :
  ~ in_bounds_A A B P t0 ->
  Zeus.log_prior [Num A; Num B; Num P; Num t0] = Ok (neg inf).
Proof.
  intros H. now rewrite log_prior_test, (outside_test_true A B P t0 H).
Qed.

(** The two notebooks define the same prior and the same periodic model. *)
Lemma log_prior_A_eq : Arianna.log_prior_A = Zeus.log_prior.
Proof. reflexivity. Qed.

Lemma model_A_eq : Arianna.model_A = Zeus.sine_model.
Proof. reflexivity. Qed.

Lemma log_prior_B_inside (B : R) :
  in_bounds_B B -> Arianna.log_prior_B [Num B] = Ok (Num 0.0).
Proof.
  intros H. unfold Arianna.log_prior_B. now rewrite (abs_gt_false B H).
Qed.

Lemma log_prior_B_outside (B : R) :
  ~ in_bounds_B B -> Arianna.log_prior_B [Num B] = Ok (neg inf).
Proof.
  intros H. unfold Arianna.log_prior_B. now rewrite (abs_gt_true B H).
Qed.

(** C1.  On a vector of four reals the prior of either notebook returns
    negative infinity when some component is outside its bound
    (A in [0.1, 100], B in [-10, 10], P in [0.3, 10], t0 in [0, 1]) and 0.0
    otherwise; [log_prior_B] does the same for its one bound on B.  In both
    cases the function returns: the out-of-bound case is a value, not an
    exception. *)
Theorem prior_is_box_indicator (A B P t0 : R) :
  (in_bounds_A A B P t0 ->
     Zeus.log_prior [Num A; Num B; Num P; Num t0] = Ok (Num 0.0) /\
     Arianna.log_prior_A [Num A; Num B; Num P; Num t0] = Ok (Num 0.0)) /\
  (~ in_bounds_A A B P t0 ->
     Zeus.log_prior [Num A; Num B; Num P; Num t0] = Ok (neg inf) /\
     Arianna.log_prior_A [Num A; Num B; Num P; Num t0] = Ok (neg inf)) /\
  (in_bounds_B B -> Arianna.log_prior_B [Num B] = Ok (Num 0.0)) /\
  (~ in_bounds_B B -> Arianna.log_prior_B [Num B] = Ok (neg inf)).
Proof.
  rewrite log_prior_A_eq.
  split; [| split; [| split]]; intros Hb.
  - split; apply log_prior_inside; exact Hb.
  - split; apply log_prior_outside; exact Hb.
  - apply log_prior_B_inside; exact Hb.
  - apply log_prior_B_outside; exact Hb.
Qed.

Lemma prior_is_box_indicator_witness :
  (Zeus.log_prior [Num 4.3; Num 1.0; Num 3.1; Num 0.4] = Ok (Num 0.0) /\
   Arianna.log_prior_A [Num 4.3; Num 1.0; Num 3.1; Num 0.4] = Ok (Num 0.0)) /\
  (Zeus.log_prior [Num 4.3; Num 1.0; Num 0.2; Num 0.4] = Ok (neg inf) /\
   Arianna.log_prior_A [Num 4.3; Num 1.0; Num 0.2; Num 0.4] = Ok (neg inf)) /\
  Arianna.log_prior_B [Num 1.0] = Ok (Num 0.0) /\
  Arianna.log_prior_B [Num (-10.5)] = Ok (neg inf).
Proof.
  split; [| split; [| split]].
  - apply (proj1 (prior_is_box_indicator 4.3 1.0 3.1 0.4)).
    unfold in_bounds_A; lra.
  - apply (proj1 (proj2 (prior_is_box_indicator 4.3 1.0 0.2 0.4))).
    unfold in_bounds_A; lra.
  - apply (proj1 (proj2 (proj2 (prior_is_box_indicator 4.3 1.0 3.1 0.4)))).
    unfold in_bounds_B; lra.
  - apply (proj2 (proj2 (proj2 (prior_is_box_indicator 4.3 (-10.5) 3.1 0.4)))).
    unfold in_bounds_B; lra.
Defined.

(** C8.  The bounds are closed: a vector with a component exactly on an
    endpoint of its bound, and every component within its bound, gets 0.0
    from the prior, not negative infinity (each comparison in the test is
    strict). *)
Theorem prior_endpoints_in_bound (A B P t0 : R) :
  on_endpoint A B P t0 ->
  in_bounds_A A B P t0 ->
  Zeus.log_prior [Num A; Num B; Num P; Num t0] = Ok (Num 0.0) /\
  Arianna.log_prior_A [Num A; Num B; Num P; Num t0] = Ok (Num 0.0) /\
  (B = 10.0 \/ B = -10.0 -> Arianna.log_prior_B [Num B] = Ok (Num 0.0)).
Proof.
  intros _ Hb. rewrite log_prior_A_eq.
  split; [| split].
  - apply log_prior_inside; exact Hb.
  - apply log_prior_inside; exact Hb.
  - intros HB. apply log_prior_B_inside. unfold in_bounds_B. lra.
Qed.

Lemma prior_endpoints_in_bound_witness :
  Zeus.log_prior [Num 0.1; Num (-10.0); Num 10.0; Num 1.0] = Ok (Num 0.0) /\
  Arianna.log_prior_A [Num 0.1; Num (-10.0); Num 10.0; Num 1.0] = Ok (Num 0.0) /\
  Arianna.log_prior_B [Num (-10.0)] = Ok (Num 0.0).
Proof.
  assert (He : on_endpoint 0.1 (-10.0) 10.0 1.0) by (left; reflexivity).
  assert (Hb : in_bounds_A 0.1 (-10.0) 10.0 1.0) by (unfold in_bounds_A; lra).
  destruct (prior_endpoints_in_bound 0.1 (-10.0) 10.0 1.0 He Hb) as (H1 & H2 & H3).
  repeat split; auto.
Defined.

(** ** The models *)

Lemma sine_model_scalar (A B P t0 ti : float64) :
  Zeus.sine_model [A; B; P; t0] (Scalar ti) = Ok (Scalar (sine_at A B P t0 ti)).
Proof. reflexivity. Qed.

Lemma sine_model_array (A B P t0 : float64) (ts : list float64) :
  Zeus.sine_model [A; B; P; t0] (Array ts) = Ok (Array (map (sine_at A B P t0) ts)).
Proof.
  unfold Zeus.sine_model, sin_of, lift2, lift1, const, var; simpl.
  rewrite !map_map. reflexivity.
Qed.

Lemma model_B_scalar (B ti : float64) :
  Arianna.model_B [B] (Scalar ti) = Ok (Scalar (offset_at B ti)).
Proof. reflexivity. Qed.

Lemma model_B_array (B : float64) (ts : list float64) :
  Arianna.model_B [B] (Array ts) = Ok (Array (map (offset_at B) ts)).
Proof.
  unfold Arianna.model_B, lift2, const, var; simpl.
  rewrite map_map. reflexivity.
Qed.

Lemma pointwise_vectorizes (model : value -> result value) (f : float64 -> float64) :
  (forall ti, model (Scalar ti) = Ok (Scalar (f ti))) ->
  (forall ts, model (Array ts) = Ok (Array (map f ts))) ->
  vectorizes model.
Proof.
  intros Hs Ha ts. exists (map f ts).
  split; [apply Ha | split; [apply length_map |]].
  intros i d Hi. rewrite Hs. do 2 f_equal.
  rewrite (nth_indep (map f ts) d (f d)) by (rewrite length_map; exact Hi).
  symmetry. apply map_nth.
Qed.

(** C4.  Each model function, applied to a sequence of N times, returns a
    sequence of N values, and the value at position i is the model applied
    to the time at position i. *)
Theorem models_vectorize (A B P t0 B' : float64) :
  vectorizes (Zeus.sine_model [A; B; P; t0]) /\
  vectorizes (Arianna.model_A [A; B; P; t0]) /\
  vectorizes (Arianna.model_B [B']).
Proof.
  rewrite model_A_eq.
  split; [| split].
  - apply (pointwise_vectorizes _ (sine_at A B P t0));
      [apply sine_model_scalar | apply sine_model_array].
  - apply (pointwise_vectorizes _ (sine_at A B P t0));
      [apply sine_model_scalar | apply sine_model_array].
  - apply (pointwise_vectorizes _ (offset_at B'));
      [apply model_B_scalar | apply model_B_array].
Qed.

Lemma offset_at_finite_time (B : float64) (t : R) : offset_at B (Num t) = B.
Proof.
  unfold offset_at; destruct B; simpl; try reflexivity.
  f_equal. ring.
Qed.

Lemma map_constant {X Y : Type} (f : X -> Y) (c : Y) (l : list X) :
  (forall x, f x = c) -> map f l = repeat c (length l).
Proof.
  intros H. induction l as [| x l IH]; simpl; [reflexivity |].
  now rewrite H, IH.
Qed.

Lemma offset_at_not_finite (B ti : float64) :
  isfinite ti = false -> offset_at B ti = NaN.
Proof.
  intros H. unfold offset_at.
  destruct ti; try discriminate H; unfold mul; try rewrite Reqb_refl;
    reflexivity.
Qed.

(** C10, as the code has it.  The constant-offset model does not depend on
    a finite time: at any finite time [t] it returns [B], and on a sequence
    of finite times it returns as many copies of [B].  At a time that is
    not finite (an infinity or [NaN]) the product [0 * t] is [NaN], and so
    is the value returned. *)
Theorem model_B_constant (B : float64) (t : R) (ts : list R) (ti : float64) :
  Arianna.model_B [B] (Scalar (Num t)) = Ok (Scalar B) /\
  Arianna.model_B [B] (Array (map Num ts)) = Ok (Array (repeat B (length ts))) /\
  (isfinite ti = false -> Arianna.model_B [B] (Scalar ti) = Ok (Scalar NaN)).
Proof.
  split; [| split].
  - rewrite model_B_scalar, offset_at_finite_time. reflexivity.
  - rewrite model_B_array, map_map.
    rewrite (map_constant (fun x => offset_at B (Num x)) B ts); [reflexivity |].
    intros x. apply offset_at_finite_time.
  - intros H. rewrite model_B_scalar, offset_at_not_finite by exact H.
    reflexivity.
Qed.

Lemma model_B_constant_witness :
  Arianna.model_B [Num 1.0] (Scalar (Num 2.5)) = Ok (Scalar (Num 1.0)) /\
  Arianna.model_B [Num 1.0] (Array (map Num [0.5; 2.5; 4.0]))
    = Ok (Array (repeat (Num 1.0) (length [0.5; 2.5; 4.0]))) /\
  Arianna.model_B [Num 1.0] (Scalar (neg inf)) = Ok (Scalar NaN).
Proof.
  destruct (model_B_constant (Num 1.0) 2.5 [0.5; 2.5; 4.0] (neg inf))
    as (H1 & H2 & H3).
  split; [exact H1 | split; [exact H2 | apply H3; reflexivity]].
Defined.

(** At an infinite time, or at [NaN], the constant-offset model does not
    return its offset. *)
Lemma model_B_at_infinite_time :
  Arianna.model_B [Num 1.0] (Scalar inf) = Ok (Scalar NaN) /\
  Arianna.model_B [Num 1.0] (Scalar NaN) = Ok (Scalar NaN) /\
  Arianna.model_B [Num 1.0] (Array [Num 0.5; inf])
    = Ok (Array [Num 1.0; NaN]).
Proof.
  split; [| split].
  - rewrite model_B_scalar, offset_at_not_finite; reflexivity.
  - rewrite model_B_scalar, offset_at_not_finite; reflexivity.
  - rewrite model_B_array. cbn [map].
    rewrite offset_at_finite_time, offset_at_not_finite; reflexivity.
Qed.

(** ** The likelihood *)

Lemma zip_with_columns (f : float64 -> float64 -> float64)
  (g : float64 -> float64) (obs : observation_set) :
  zip_with f (map g (map fst obs)) (map snd obs)
  = map (fun ob => f (g (fst ob)) (snd ob)) obs.
Proof.
  induction obs as [| ob obs IH]; simpl; [reflexivity |].
  now rewrite IH.
Qed.

Lemma broadcast_columns (f : float64 -> float64 -> float64)
  (g : float64 -> float64) (obs : observation_set) :
  broadcast f (Array (map g (map fst obs))) (values obs)
  = Ok (Array (map (fun ob => f (g (fst ob)) (snd ob)) obs)).
Proof.
  unfold values, broadcast.
  rewrite !length_map, Nat.eqb_refl, zip_with_columns. reflexivity.
Qed.

(** The value both likelihood bodies compute once the model has been
    evaluated pointwise by [g]. *)
Lemma residual_pipeline (g : float64 -> float64) (sigma : float64)
  (obs : observation_set) :
  (s <- sum_of (pow2 ((Array (map g (map fst obs)) - values obs) / sigma)%np) ;;
   Ok (mul (Num (-0.5)) s))%py
  = Ok (mul (Num (-0.5))
          (fold_right add (Num 0)
             (map (fun ob => square (div (sub (g (fst ob)) (snd ob)) sigma)) obs))).
Proof.
  unfold sum_of, pow2, lift1, lift2, var, const. cbn [bind].
  rewrite broadcast_columns. cbn [bind broadcast ufunc sum].
  rewrite !map_map. reflexivity.
Qed.

Lemma log_like_sine (A B P t0 : float64) (obs : observation_set) :
  Zeus.log_like (times obs) (values obs) [A; B; P; t0]
  = Ok (neg_half_sum_sq Zeus.sine_model [A; B; P; t0] Zeus.yerr obs).
Proof.
  unfold Zeus.log_like, times. rewrite sine_model_array. cbn [bind].
  rewrite residual_pipeline. reflexivity.
Qed.

Lemma log_like_A_eq : Arianna.log_like_A = Zeus.log_like.
Proof. reflexivity. Qed.

Lemma log_like_offset (B : float64) (obs : observation_set) :
  Arianna.log_like_B (times obs) (values obs) [B]
  = Ok (neg_half_sum_sq Arianna.model_B [B] Arianna.yerr obs).
Proof.
  unfold Arianna.log_like_B, times. rewrite model_B_array. cbn [bind].
  rewrite residual_pipeline. reflexivity.
Qed.

(** C3.  Each likelihood function returns exactly -0.5 times the sum, over
    the observations, of ((prediction at the observation's time - observed
    value) / yerr) squared; no other term, and in particular no
    normalization constant, enters the result. *)
Theorem log_like_is_neg_half_sum_sq (A B P t0 B' : float64) (obs : observation_set) :
  Zeus.log_like (times obs) (values obs) [A; B; P; t0]
    = Ok (neg_half_sum_sq Zeus.sine_model [A; B; P; t0] Zeus.yerr obs) /\
  Arianna.log_like_A (times obs) (values obs) [A; B; P; t0]
    = Ok (neg_half_sum_sq Arianna.model_A [A; B; P; t0] Arianna.yerr obs) /\
  Arianna.log_like_B (times obs) (values obs) [B']
    = Ok (neg_half_sum_sq Arianna.model_B [B'] Arianna.yerr obs).
Proof.
  split; [| split].
  - apply log_like_sine.
  - rewrite log_like_A_eq. apply log_like_sine.
  - apply log_like_offset.
Qed.

(** *** The likelihood on real data *)

Lemma sine_at_real (A B P t0 ti : R) :
  P <> 0 ->
  sine_at (Num A) (Num B) (Num P) (Num t0) (Num ti)
  = Num (A * Rtrigo_def.sin ((ti / P + t0) * 2 * PI) + B).
Proof.
  intros HP. unfold sine_at, div. rewrite (Reqb_false P 0 HP). reflexivity.
Qed.

Lemma sq_residual_sine_real (A B P t0 ti yi : R) :
  P <> 0 ->
  sq_residual Zeus.sine_model [Num A; Num B; Num P; Num t0] Zeus.yerr (Num ti, Num yi)
  = Num (Rsqr ((A * Rtrigo_def.sin ((ti / P + t0) * 2 * PI) + B - yi) / 1.0)).
Proof.
  intros HP. unfold sq_residual, predict. rewrite sine_model_scalar.
  cbn [fst snd]. rewrite (sine_at_real A B P t0 ti HP).
  unfold Zeus.yerr, square, sub, div, neg, add, mul.
  rewrite Reqb_false by lra. reflexivity.
Qed.

Lemma log_like_real (A B P t0 : R) (robs : list (R * R)) :
  P <> 0 ->
  Zeus.log_like (times (real_obs robs)) (values (real_obs robs))
                [Num A; Num B; Num P; Num t0]
  = Ok (Num (-0.5 * sine_rss A B P t0 robs)).
Proof.
  intros HP. rewrite log_like_sine. unfold neg_half_sum_sq, real_obs, sine_rss.
  rewrite map_map.
  rewrite (map_ext _ (fun ob => Num (Rsqr ((A * Rtrigo_def.sin ((fst ob / P + t0) * 2 * PI)
                                              + B - snd ob) / 1.0))))
    by (intros [ti yi]; apply sq_residual_sine_real; exact HP).
  rewrite <- (map_map _ Num), sum_of_reals. reflexivity.
Qed.

Lemma sine_rss_nonneg (A B P t0 : R) (robs : list (R * R)) :
  0 <= sine_rss A B P t0 robs.
Proof.
  unfold sine_rss. induction robs as [| ob robs IH]; simpl; [lra |].
  apply Rplus_le_le_0_compat; [apply Rle_0_sqr | exact IH].
Qed.

(** ** The posterior *)

(** C2.  When the prior returns a finite value the posterior is that value
    plus the likelihood; when the prior returns negative infinity the
    posterior is negative infinity whatever the data: the likelihood is not
    consulted (it could even raise on arrays that do not broadcast). *)
Theorem log_post_gates_on_prior (t y : value) (params : list float64) (lp : float64) :
  Zeus.log_prior params = Ok lp ->
  (isfinite lp = true ->
     Zeus.log_post t y params
     = (ll <- Zeus.log_like t y params ;; Ok (add lp ll))%py) /\
  (lp = neg inf ->
     forall t' y' : value, Zeus.log_post t' y' params = Ok (neg inf)).
Proof.
  intros Hp. split.
  - intros Hf. unfold Zeus.log_post. rewrite Hp. cbn [bind]. now rewrite Hf.
  - intros -> t' y'. unfold Zeus.log_post. rewrite Hp. reflexivity.
Qed.

Lemma log_post_gates_on_prior_witness :
  Zeus.log_post (Array [Num 0.5; Num 2.5]) (Array [Num 1.0; Num 3.0])
                [Num 4.3; Num 1.0; Num 3.1; Num 0.4]
  = (ll <- Zeus.log_like (Array [Num 0.5; Num 2.5]) (Array [Num 1.0; Num 3.0])
                         [Num 4.3; Num 1.0; Num 3.1; Num 0.4] ;;
     Ok (add (Num 0.0) ll))%py /\
  Zeus.log_post (Array [Num 0.5; Num 2.5]) (Array [Num 1.0; Num 3.0; Num 2.0])
                [Num 4.3; Num 1.0; Num 20.0; Num 0.4]
  = Ok (neg inf).
Proof.
  split.
  - apply (proj1 (log_post_gates_on_prior
                    (Array [Num 0.5; Num 2.5]) (Array [Num 1.0; Num 3.0])
                    [Num 4.3; Num 1.0; Num 3.1; Num 0.4] (Num 0.0)
                    (log_prior_inside 4.3 1.0 3.1 0.4
                       ltac:(unfold in_bounds_A; lra)))).
    reflexivity.
  - apply (proj2 (log_post_gates_on_prior
                    (Array []) (Array [])
                    [Num 4.3; Num 1.0; Num 20.0; Num 0.4] (neg inf)
                    (log_prior_outside 4.3 1.0 20.0 0.4
                       ltac:(unfold in_bounds_A; lra)))).
    reflexivity.
Defined.

(** On the arrays of the second half of the witness the likelihood itself
    raises (two and three elements do not broadcast); the posterior does
    not, since it returns before calling it. *)
Example log_like_raises_on_mismatch :
  Zeus.log_like (Array [Num 0.5; Num 2.5]) (Array [Num 1.0; Num 3.0; Num 2.0])
                [Num 4.3; Num 1.0; Num 20.0; Num 0.4]
  = Raise ValueError.
Proof. reflexivity. Qed.

(** The posterior on real data, in closed form. *)
Lemma log_post_real (A B P t0 : R) (robs : list (R * R)) :
  Zeus.log_post (times (real_obs robs)) (values (real_obs robs))
                [Num A; Num B; Num P; Num t0]
  = Ok (if outside_test (Num A) (Num B) (Num P) (Num t0) then neg inf
        else Num (0.0 + -0.5 * sine_rss A B P t0 robs)).
Proof.
  unfold Zeus.log_post. rewrite log_prior_test.
  destruct (outside_test (Num A) (Num B) (Num P) (Num t0)) eqn:E;
    [reflexivity |].
  apply outside_test_false_inv in E. destruct E as (_ & _ & HP & _).
  cbn [bind isfinite negb].
  rewrite log_like_real by lra. reflexivity.
Qed.

(** C9.  On a vector of four reals, and real data, the posterior is never
    positive: it is negative infinity, or a real number that is at most 0
    (the prior contributes 0.0 or negative infinity, the likelihood -0.5
    times a sum of squares). *)
Theorem log_post_nonpositive (A B P t0 : R) (robs : list (R * R)) :
  exists r : float64,
    Zeus.log_post (times (real_obs robs)) (values (real_obs robs))
                  [Num A; Num B; Num P; Num t0] = Ok r /\
    (r = neg inf \/ exists x : R, r = Num x /\ x <= 0).
Proof.
  rewrite log_post_real.
  destruct (outside_test (Num A) (Num B) (Num P) (Num t0)).
  - exists (neg inf). split; [reflexivity | left; reflexivity].
  - eexists. split; [reflexivity | right].
    eexists. split; [reflexivity |].
    pose proof (sine_rss_nonneg A B P t0 robs). lra.
Qed.

(** ** The data generator *)

Section Generator.
Context {G : Random.RandomState}.

Lemma uniform_draws_length (low high : R) (n : nat) (st : Random.state G) :
  length (fst (Random.uniform_draws G low high n st)) = n.
Proof.
  revert st. induction n as [| n IH]; intros st; simpl; [reflexivity |].
  destruct (Random.random_sample G st) as [u st1].
  specialize (IH st1).
  destruct (Random.uniform_draws G low high n st1) as [xs st2].
  simpl in *. now rewrite IH.
Qed.

Lemma normal_draws_length (scale : float64) (locs : list float64)
  (st : Random.state G) :
  length (fst (Random.normal_draws G scale locs st)) = length locs.
Proof.
  revert st. induction locs as [| loc locs IH]; intros st; simpl; [reflexivity |].
  destruct (Random.normal_draw G scale loc st) as [x st1].
  specialize (IH st1).
  destruct (Random.normal_draws G scale locs st1) as [xs st2].
  simpl in *. now rewrite IH.
Qed.

Lemma seed_valid (seed : Z) (st : Random.state G) :
  valid_seed seed ->
  Random.seed seed st = (Ok tt, Random.init_by_seed G seed).
Proof.
  intros [H0 H1]. unfold Random.seed.
  destruct (Z.leb_spec 0 seed); [| lia].
  destruct (Z.ltb_spec seed (2 ^ 32)); [reflexivity | lia].
Qed.

Lemma bindM_after_seed {A : Type} (seed : Z) (k : unit -> Random.M G A)
  (st1 st2 : Random.state G) :
  fst (Random.bindM (Random.seed seed) k st1)
  = fst (Random.bindM (Random.seed seed) k st2).
Proof.
  unfold Random.bindM, Random.seed.
  destruct ((0 <=? seed) && (seed <? 2 ^ 32))%Z; reflexivity.
Qed.

End Generator.

(** C5.  Two runs of the data generator with the same seed, count, time
    domain, true parameters and noise level produce the same observation
    set, element for element, whatever state the global generator was in
    before each run. *)
Theorem generate_deterministic (G : Random.RandomState)
  (seed n_data : Z) (low high : R) (params_true : list float64) (yerr : float64)
  (st1 st2 : Random.state G) :
  fst (Zeus.generate seed n_data low high params_true yerr st1)
  = fst (Zeus.generate seed n_data low high params_true yerr st2) /\
  fst (Arianna.generate seed n_data low high params_true yerr st1)
  = fst (Arianna.generate seed n_data low high params_true yerr st2).
Proof.
  split.
  - unfold Zeus.generate, Zeus.times_cell, Random.bindM, Random.seed.
    destruct ((0 <=? seed) && (seed <? 2 ^ 32))%Z; reflexivity.
  - unfold Arianna.generate. apply bindM_after_seed.
Qed.

Lemma columns_of_combine (ts ys : list float64) :
  length ts = length ys ->
  map fst (combine ts ys) = ts /\ map snd (combine ts ys) = ys.
Proof.
  revert ys. induction ts as [| a ts IH]; intros [| b ys] H; simpl in *;
    try discriminate; [split; reflexivity |].
  injection H as H. destruct (IH ys H) as [H1 H2].
  now rewrite H1, H2.
Qed.

Section GeneratorCount.
Context {G : Random.RandomState}.
Variables (seed n_data : Z) (low high : R) (A B P t0 yerr : float64).
Variable st : Random.state G.

Lemma zeus_generate_negative_count :
  (n_data < 0)%Z ->
  fst (Zeus.generate seed n_data low high [A; B; P; t0] yerr st) = Raise ValueError.
Proof.
  intros Hn.
  unfold Zeus.generate, Zeus.times_cell, Random.bindM, Random.seed, Random.uniform.
  destruct ((0 <=? seed) && (seed <? 2 ^ 32))%Z; [| reflexivity].
  destruct (Z.ltb_spec n_data 0); [reflexivity | lia].
Qed.

Lemma arianna_generate_negative_count :
  (n_data < 0)%Z ->
  fst (Arianna.generate seed n_data low high [A; B; P; t0] yerr st) = Raise ValueError.
Proof.
  intros Hn.
  unfold Arianna.generate, Random.bindM, Random.seed, Random.uniform.
  destruct ((0 <=? seed) && (seed <? 2 ^ 32))%Z; [| reflexivity].
  destruct (Z.ltb_spec n_data 0); [reflexivity | lia].
Qed.

Lemma arianna_generate_refused (e : exn) :
  (0 <= n_data)%Z -> valid_seed seed -> Random.refuses G [n_data] = Some e ->
  fst (Arianna.generate seed n_data low high [A; B; P; t0] yerr st) = Raise e.
Proof.
  intros Hn Hs He.
  unfold Arianna.generate, Random.bindM.
  rewrite (seed_valid seed st Hs).
  unfold Random.uniform.
  destruct (Z.ltb_spec n_data 0) as [Hlt | _]; [lia |].
  now rewrite He.
Qed.

Lemma arianna_generate_count :
  (0 <= n_data)%Z -> Random.refuses G [n_data] = None ->
  valid_seed seed -> lt yerr (Num 0) = false ->
  exists obs : observation_set,
    fst (Arianna.generate seed n_data low high [A; B; P; t0] yerr st)
    = Ok (times obs, values obs) /\
    length obs = Z.to_nat n_data.
Proof.
  intros Hn Hfit Hs Hy.
  unfold Arianna.generate, Random.bindM.
  rewrite (seed_valid seed st Hs).
  unfold Random.uniform.
  destruct (Z.ltb_spec n_data 0) as [Hlt | _]; [lia |].
  rewrite Hfit.
  pose proof (uniform_draws_length low high (Z.to_nat n_data)
                (Random.init_by_seed G seed)) as Hts.
  destruct (Random.uniform_draws G low high (Z.to_nat n_data)
              (Random.init_by_seed G seed)) as [ts st1].
  cbn [fst] in Hts.
  rewrite model_A_eq, sine_model_array. unfold Random.lift, Random.normal.
  rewrite Hy.
  pose proof (normal_draws_length yerr (map (sine_at A B P t0) ts) st1) as Hys.
  destruct (Random.normal_draws G yerr (map (sine_at A B P t0) ts) st1) as [ys st2].
  cbn [fst] in Hys. rewrite length_map in Hys.
  destruct (columns_of_combine ts ys) as [H1 H2]; [congruence |].
  exists (combine ts ys). unfold times, values. rewrite H1, H2.
  split; [reflexivity |].
  rewrite length_combine, Hys, Hts. apply Nat.min_id.
Qed.

Lemma zeus_generate_eq :
  Zeus.generate seed n_data low high [A; B; P; t0] yerr st
  = Arianna.generate seed n_data low high [A; B; P; t0] yerr st.
Proof.
  unfold Zeus.generate, Zeus.times_cell, Zeus.values_cell, Arianna.generate,
    Random.bindM.
  rewrite model_A_eq.
  destruct (Random.seed seed st) as [[[] | e] st0]; [| reflexivity].
  destruct (Random.uniform low high n_data st0) as [[t | e] st1]; [| reflexivity].
  unfold Random.lift.
  destruct (Zeus.sine_model [A; B; P; t0] t) as [y_true | e]; [| reflexivity].
  destruct (Random.normal y_true yerr st1) as [[y | e] st2]; reflexivity.
Qed.

End GeneratorCount.

Lemma arianna_generate_zero_count (G : Random.RandomState) (seed : Z)
  (low high : R) (A B P t0 yerr : float64) (st : Random.state G) :
  valid_seed seed -> lt yerr (Num 0) = false ->
  fst (Arianna.generate seed 0 low high [A; B; P; t0] yerr st)
  = Ok (Array [], Array []).
Proof.
  intros Hs Hy.
  destruct (arianna_generate_count seed 0 low high A B P t0 yerr st)
    as (obs & Hobs & Hlen);
    [lia | apply Random.accepts_empty | exact Hs | exact Hy |].
  destruct obs as [| ob obs]; [| discriminate Hlen].
  now rewrite Hobs.
Qed.

(** C6, as the code has it.  A negative count makes the generator fail
    with an error before any observation is drawn.  A count of 0 is not an
    error: with a seed numpy accepts and a noise level that is not negative
    it gives the empty observation set.  A count of zero or more that numpy
    does not refuse as too large succeeds, with exactly that many
    observations; one that numpy refuses makes the generator fail with
    numpy's error. *)
Theorem generate_count_cases (G : Random.RandomState)
  (seed n_data : Z) (low high : R) (A B P t0 yerr : float64)
  (st : Random.state G) :
  ((n_data < 0)%Z ->
     fst (Zeus.generate seed n_data low high [A; B; P; t0] yerr st)
       = Raise ValueError /\
     fst (Arianna.generate seed n_data low high [A; B; P; t0] yerr st)
       = Raise ValueError) /\
  (n_data = 0%Z -> valid_seed seed -> lt yerr (Num 0) = false ->
     fst (Zeus.generate seed n_data low high [A; B; P; t0] yerr st)
       = Ok (Array [], Array []) /\
     fst (Arianna.generate seed n_data low high [A; B; P; t0] yerr st)
       = Ok (Array [], Array [])) /\
  ((0 <= n_data)%Z -> Random.refuses G [n_data] = None ->
   valid_seed seed -> lt yerr (Num 0) = false ->
     exists obs : observation_set,
       fst (Zeus.generate seed n_data low high [A; B; P; t0] yerr st)
         = Ok (times obs, values obs) /\
       fst (Arianna.generate seed n_data low high [A; B; P; t0] yerr st)
         = Ok (times obs, values obs) /\
       length obs = Z.to_nat n_data) /\
  (forall e : exn,
     (0 <= n_data)%Z -> Random.refuses G [n_data] = Some e -> valid_seed seed ->
     fst (Zeus.generate seed n_data low high [A; B; P; t0] yerr st) = Raise e /\
     fst (Arianna.generate seed n_data low high [A; B; P; t0] yerr st) = Raise e).
Proof.
  split; [| split; [| split]].
  - intros Hn. split.
    + now apply zeus_generate_negative_count.
    + now apply arianna_generate_negative_count.
  - intros -> Hs Hy. rewrite zeus_generate_eq.
    split; now apply arianna_generate_zero_count.
  - intros Hn Hfit Hs Hy.
    destruct (arianna_generate_count seed n_data low high A B P t0 yerr st
                Hn Hfit Hs Hy) as (obs & Hobs & Hlen).
    exists obs. rewrite zeus_generate_eq. auto.
  - intros e Hn He Hs. rewrite zeus_generate_eq.
    split; now apply arianna_generate_refused.
Qed.

Lemma yerr_not_negative : lt (Num 1.0) (Num 0) = false.
Proof. apply Rltb_false. lra. Qed.

Lemma valid_seed_42 : valid_seed 42.
Proof. unfold valid_seed. lia. Qed.

(** The cells with the constants of the notebooks: 50 observations,
    where numpy holds arrays of 50 numbers. *)
Lemma notebook_data_fifty (G : Random.RandomState) (st : Random.state G) :
  Random.refuses G [50%Z] = None ->
  (exists obs : observation_set,
     fst (Zeus.notebook_data st) = Ok (times obs, values obs) /\
     length obs = 50%nat) /\
  (exists obs : observation_set,
     fst (Arianna.notebook_data st) = Ok (times obs, values obs) /\
     length obs = 50%nat).
Proof.
  intros Hfit.
  unfold Zeus.notebook_data, Arianna.notebook_data,
    Zeus.params_true, Arianna.params_true, Zeus.n_data, Arianna.n_data.
  rewrite zeus_generate_eq.
  split; apply arianna_generate_count;
    solve [lia | exact Hfit | exact valid_seed_42 | exact yerr_not_negative].
Qed.

Lemma generate_count_cases_witness :
  (fst (Zeus.generate (G := lcg) 42 (-1) 0 5
          [Num 1.0; Num 1.0; Num 3.0; Num 0.0] (Num 1.0) 0%Z)
     = Raise ValueError /\
   fst (Arianna.generate (G := lcg) 42 (-1) 0 5
          [Num 1.0; Num 1.0; Num 3.0; Num 0.0] (Num 1.0) 0%Z)
     = Raise ValueError) /\
  (exists obs : observation_set,
     fst (Zeus.generate (G := lcg) 42 50 0 5
            [Num 1.0; Num 1.0; Num 3.0; Num 0.0] (Num 1.0) 0%Z)
       = Ok (times obs, values obs) /\
     fst (Arianna.generate (G := lcg) 42 50 0 5
            [Num 1.0; Num 1.0; Num 3.0; Num 0.0] (Num 1.0) 0%Z)
       = Ok (times obs, values obs) /\
     length obs = Z.to_nat 50) /\
  (fst (Zeus.generate (G := lcg) 42 (2 ^ 63) 0 5
          [Num 1.0; Num 1.0; Num 3.0; Num 0.0] (Num 1.0) 0%Z)
     = Raise ValueError /\
   fst (Arianna.generate (G := lcg) 42 (2 ^ 63) 0 5
          [Num 1.0; Num 1.0; Num 3.0; Num 0.0] (Num 1.0) 0%Z)
     = Raise ValueError).
Proof.
  split; [| split].
  - apply (proj1 (generate_count_cases lcg 42 (-1) 0 5
                    (Num 1.0) (Num 1.0) (Num 3.0) (Num 0.0) (Num 1.0) 0%Z)).
    lia.
  - apply (proj1 (proj2 (proj2 (generate_count_cases lcg 42 50 0 5
                    (Num 1.0) (Num 1.0) (Num 3.0) (Num 0.0) (Num 1.0) 0%Z)))).
    + lia.
    + reflexivity.
    + exact valid_seed_42.
    + exact yerr_not_negative.
  - apply (proj2 (proj2 (proj2 (generate_count_cases lcg 42 (2 ^ 63) 0 5
                    (Num 1.0) (Num 1.0) (Num 3.0) (Num 0.0) (Num 1.0) 0%Z)))).
    + lia.
    + reflexivity.
    + exact valid_seed_42.
Defined.

(** With a count of 0 both generators return the empty observation set. *)
Lemma generate_zero_count_succeeds :
  fst (Zeus.generate (G := lcg) 42 0 0 5 Zeus.params_true Zeus.yerr 0%Z)
    = Ok (Array [], Array []) /\
  fst (Arianna.generate (G := lcg) 42 0 0 5 Arianna.params_true Arianna.yerr 0%Z)
    = Ok (Array [], Array []).
Proof.
  unfold Zeus.params_true, Zeus.yerr, Arianna.params_true, Arianna.yerr.
  rewrite zeus_generate_eq.
  split; apply arianna_generate_zero_count;
    solve [exact valid_seed_42 | exact yerr_not_negative].
Qed.

(** ** What the generator hands to the posterior *)

Section GeneratedData.
Context {G : Random.RandomState}.





End GeneratedData.



(** X3.  On real data, and a period that is not zero, the likelihood is the
    real number -0.5 times the sum of the squared residuals. *)
Theorem log_like_closed_form (A B P t0 : R) (robs : list (R * R)) :
  P <> 0 ->
  Zeus.log_like (times (real_obs robs)) (values (real_obs robs))
                [Num A; Num B; Num P; Num t0]
  = Ok (Num (-0.5 * sine_rss A B P t0 robs)).
Proof. apply log_like_real. Qed.

Lemma log_like_closed_form_witness :
  Zeus.log_like (times (real_obs [(0.5, 1.0); (2.5, 3.0)]))
                (values (real_obs [(0.5, 1.0); (2.5, 3.0)]))
                [Num 4.3; Num 1.0; Num 3.1; Num 0.4]
  = Ok (Num (-0.5 * sine_rss 4.3 1.0 3.1 0.4 [(0.5, 1.0); (2.5, 3.0)])).
Proof.
  apply (log_like_closed_form 4.3 1.0 3.1 0.4 [(0.5, 1.0); (2.5, 3.0)]).
  lra.
Defined.

(** ** Beyond the reals *)

(** X1.  A comparison with [NaN] is false, so a vector with [NaN]
    components is not rejected by the bounds test: the priors return 0.0
    for it. *)
Theorem prior_accepts_nan :
  Zeus.log_prior [NaN; NaN; NaN; NaN] = Ok (Num 0.0) /\
  Arianna.log_prior_A [NaN; NaN; NaN; NaN] = Ok (Num 0.0) /\
  Arianna.log_prior_B [NaN] = Ok (Num 0.0).
Proof. repeat split. Qed.

(** X4.  A parameter vector of the wrong length does not unpack: every
    function of the periodic model raises on it. *)
Theorem wrong_length_raises (params : list float64) (t y : value) :
  length params <> 4%nat ->
  Zeus.log_prior params = Raise ValueError /\
  Zeus.sine_model params t = Raise ValueError /\
  Zeus.log_like t y params = Raise ValueError /\
  Zeus.log_post t y params = Raise ValueError.
Proof.
  intros H.
  destruct params as [| a [| b [| c [| d [| e l]]]]];
    try (repeat split; reflexivity).
  exfalso. apply H. reflexivity.
Qed.

Lemma wrong_length_raises_witness :
  Zeus.log_prior [Num 1.0] = Raise ValueError /\
  Zeus.sine_model [Num 1.0] (Array [Num 0.5]) = Raise ValueError /\
  Zeus.log_like (Array [Num 0.5]) (Array [Num 1.0]) [Num 1.0] = Raise ValueError /\
  Zeus.log_post (Array [Num 0.5]) (Array [Num 1.0]) [Num 1.0] = Raise ValueError.
Proof.
  apply (wrong_length_raises [Num 1.0] (Array [Num 0.5]) (Array [Num 1.0])).
  simpl. lia.
Defined.

(** * Further properties of the notebooks' code *)

(** ** The objective of the minimisation *)

(** X5.  On real data the objective [-log_post] handed to [minimize] is
    never negative: inside the prior bounds it is a real number that is at
    least 0, outside it is plus infinity. *)
Theorem objective_bounded_below (A B P t0 : R) (robs : list (R * R)) :
  (in_bounds_A A B P t0 ->
   exists x : R,
     Zeus.objective (times (real_obs robs)) (values (real_obs robs))
                    [Num A; Num B; Num P; Num t0] = Ok (Num x) /\ 0 <= x) /\
  (~ in_bounds_A A B P t0 ->
   Zeus.objective (times (real_obs robs)) (values (real_obs robs))
                  [Num A; Num B; Num P; Num t0] = Ok inf).
Proof.
  unfold Zeus.objective. rewrite log_post_real. split; intros Hb.
  - rewrite (outside_test_false A B P t0 Hb). cbn [bind neg].
    eexists. split; [reflexivity |].
    pose proof (sine_rss_nonneg A B P t0 robs). lra.
  - rewrite (outside_test_true A B P t0 Hb). reflexivity.
Qed.

Lemma objective_bounded_below_witness :
  (exists x : R,
     Zeus.objective (times (real_obs [(0.5, 1.0); (2.5, 3.0)]))
                    (values (real_obs [(0.5, 1.0); (2.5, 3.0)]))
                    [Num 10.0; Num 2.0; Num 4.0; Num 0.5] = Ok (Num x) /\ 0 <= x) /\
  Zeus.objective (times (real_obs [(0.5, 1.0); (2.5, 3.0)]))
                 (values (real_obs [(0.5, 1.0); (2.5, 3.0)]))
                 [Num 10.0; Num 2.0; Num 0.0; Num 0.5] = Ok inf.
Proof.
  split.
  - apply (proj1 (objective_bounded_below 10.0 2.0 4.0 0.5 [(0.5, 1.0); (2.5, 3.0)])).
    unfold in_bounds_A; lra.
  - apply (proj2 (objective_bounded_below 10.0 2.0 0.0 0.5 [(0.5, 1.0); (2.5, 3.0)])).
    unfold in_bounds_A; lra.
Defined.

(** ** A period of zero *)

Lemma div_by_zero_not_finite (t : R) : isfinite (div (Num t) (Num 0)) = false.
Proof.
  unfold div. rewrite Reqb_refl.
  destruct (Reqb t 0); [reflexivity |].
  destruct (Rltb t 0); reflexivity.
Qed.

Lemma sin_of_phase_not_finite (x t0 : float64) :
  isfinite x = false ->
  sin (mul (mul (add x t0) (Num 2)) pi) = NaN.
Proof.
  assert (H2 : Reqb 2 0 = false) by (apply Reqb_false; lra).
  assert (H2' : Rltb 2 0 = false) by (apply Rltb_false; lra).
  assert (Hpi : Reqb PI 0 = false) by (apply Reqb_false, PI_neq0).
  assert (Hpi' : Rltb PI 0 = false)
    by (apply Rltb_false; left; apply PI_RGT_0).
  intros Hx. destruct x; try discriminate; destruct t0; simpl;
    unfold scale_inf; rewrite ?H2, ?H2'; simpl;
    unfold scale_inf; rewrite ?Hpi, ?Hpi'; reflexivity.
Qed.

Lemma mul_nan_r (x : float64) : mul x NaN = NaN.
Proof. destruct x; reflexivity. Qed.

Lemma sine_at_zero_period (A B t0 : float64) (t : R) :
  sine_at A B (Num 0) t0 (Num t) = NaN.
Proof.
  unfold sine_at.
  rewrite (sin_of_phase_not_finite _ t0 (div_by_zero_not_finite t)).
  rewrite mul_nan_r. reflexivity.
Qed.

Lemma sum_with_nan_head (x : float64) (xs : list float64) :
  fold_right add (Num 0) (NaN :: xs) = NaN.
Proof. reflexivity. Qed.

(** X6.  A period of zero raises nothing: the periodic model returns [NaN]
    at every real time, the likelihood of a non-empty real data set is
    [NaN], and only the prior test of [log_post], which rejects the vector
    before the likelihood is called, keeps the [NaN] from its caller. *)
Theorem zero_period_is_nan (A B t0 : float64) (rob : R * R) (robs : list (R * R)) :
  Zeus.sine_model [A; B; Num 0; t0] (times (real_obs (rob :: robs)))
    = Ok (Array (repeat NaN (length (rob :: robs)))) /\
  Zeus.log_like (times (real_obs (rob :: robs))) (values (real_obs (rob :: robs)))
                [A; B; Num 0; t0] = Ok NaN /\
  Zeus.log_post (times (real_obs (rob :: robs))) (values (real_obs (rob :: robs)))
                [A; B; Num 0; t0] = Ok (neg inf).
Proof.
  split; [| split].
  - unfold times, real_obs. rewrite sine_model_array, !map_map. cbn [fst].
    rewrite (map_constant _ NaN (rob :: robs)); [reflexivity |].
    intros ob. apply sine_at_zero_period.
  - rewrite log_like_sine. unfold neg_half_sum_sq.
    cbn [real_obs map]. unfold sq_residual at 1, predict.
    rewrite sine_model_scalar. cbn [fst snd].
    rewrite sine_at_zero_period. reflexivity.
  - unfold Zeus.log_post. rewrite log_prior_test. unfold outside_test.
    assert (HP : lt (Num 0) (Num 0.3) = true)
      by (unfold lt; apply Rltb_true; lra).
    rewrite HP, !orb_true_r. reflexivity.
Qed.

(** ** Data sets that are empty, mismatched or of one value *)

Lemma log_like_no_data (A B P t0 : float64) :
  Zeus.log_like (Array []) (Array []) [A; B; P; t0] = Ok (Num (-0.5 * 0)).
Proof. reflexivity. Qed.

(** X7.  With no observations the likelihood contributes nothing: for every
    parameter vector, of any length and content, the posterior is the prior
    (0.0 inside the bounds, negative infinity outside, the same error on a
    vector that does not unpack). *)
Theorem no_data_posterior_is_prior (params : list float64) :
  Zeus.log_post (Array []) (Array []) params = Zeus.log_prior params.
Proof.
  destruct params as [| A [| B [| P [| t0 [| e l]]]]]; try reflexivity.
  unfold Zeus.log_post. rewrite log_like_no_data, log_prior_test.
  destruct (outside_test A B P t0); [reflexivity |].
  cbn [bind isfinite negb add]. do 2 f_equal. lra.
Qed.

Lemma broadcast_mismatch (f : float64 -> float64 -> float64)
  (xs ys : list float64) :
  length xs <> length ys -> length xs <> 1%nat -> length ys <> 1%nat ->
  broadcast f (Array xs) (Array ys) = Raise ValueError.
Proof.
  intros Hne Hx Hy. unfold broadcast.
  destruct (Nat.eqb_spec (length xs) (length ys)) as [He | _]; [contradiction |].
  destruct xs as [| a [| a' xs]]; destruct ys as [| b [| b' ys]];
    simpl in *; try reflexivity; contradiction.
Qed.

(** X8.  Arrays [t] and [y] of different lengths, neither of length 1, make
    the likelihood raise; the posterior raises with it inside the prior
    bounds, but outside them it returns negative infinity and the mismatch
    goes unreported. *)
Theorem shape_mismatch_is_masked_outside_bounds (A B P t0 : R) (ts ys : list float64) :
  length ts <> length ys -> length ts <> 1%nat -> length ys <> 1%nat ->
  Zeus.log_like (Array ts) (Array ys) [Num A; Num B; Num P; Num t0]
    = Raise ValueError /\
  (in_bounds_A A B P t0 ->
   Zeus.log_post (Array ts) (Array ys) [Num A; Num B; Num P; Num t0]
     = Raise ValueError) /\
  (~ in_bounds_A A B P t0 ->
   Zeus.log_post (Array ts) (Array ys) [Num A; Num B; Num P; Num t0]
     = Ok (neg inf)).
Proof.
  intros Hne Ht Hy.
  assert (Hl : Zeus.log_like (Array ts) (Array ys) [Num A; Num B; Num P; Num t0]
               = Raise ValueError).
  { unfold Zeus.log_like. rewrite sine_model_array. cbn [bind].
    unfold sum_of, pow2, lift1, lift2, var, const. cbn [bind].
    rewrite broadcast_mismatch by (rewrite ?length_map; assumption).
    reflexivity. }
  split; [exact Hl | split; intros Hb; unfold Zeus.log_post].
  - rewrite (log_prior_inside A B P t0 Hb). cbn [bind isfinite negb].
    rewrite Hl. reflexivity.
  - rewrite (log_prior_outside A B P t0 Hb). reflexivity.
Qed.

Lemma shape_mismatch_is_masked_outside_bounds_witness :
  Zeus.log_like (Array [Num 0.5; Num 2.5]) (Array [Num 1.0; Num 3.0; Num 2.0])
                [Num 4.3; Num 1.0; Num 3.1; Num 0.4] = Raise ValueError /\
  Zeus.log_post (Array [Num 0.5; Num 2.5]) (Array [Num 1.0; Num 3.0; Num 2.0])
                [Num 4.3; Num 1.0; Num 3.1; Num 0.4] = Raise ValueError /\
  Zeus.log_post (Array [Num 0.5; Num 2.5]) (Array [Num 1.0; Num 3.0; Num 2.0])
                [Num 4.3; Num 1.0; Num 20.0; Num 0.4] = Ok (neg inf).
Proof.
  assert (H1 : length [Num 0.5; Num 2.5] <> length [Num 1.0; Num 3.0; Num 2.0])
    by (simpl; lia).
  assert (H2 : length [Num 0.5; Num 2.5] <> 1%nat) by (simpl; lia).
  assert (H3 : length [Num 1.0; Num 3.0; Num 2.0] <> 1%nat) by (simpl; lia).
  split; [| split].
  - apply (proj1 (shape_mismatch_is_masked_outside_bounds 4.3 1.0 3.1 0.4
                    [Num 0.5; Num 2.5] [Num 1.0; Num 3.0; Num 2.0] H1 H2 H3)).
  - apply (proj1 (proj2 (shape_mismatch_is_masked_outside_bounds 4.3 1.0 3.1 0.4
                    [Num 0.5; Num 2.5] [Num 1.0; Num 3.0; Num 2.0] H1 H2 H3))).
    unfold in_bounds_A; lra.
  - apply (proj2 (proj2 (shape_mismatch_is_masked_outside_bounds 4.3 1.0 20.0 0.4
                    [Num 0.5; Num 2.5] [Num 1.0; Num 3.0; Num 2.0] H1 H2 H3))).
    unfold in_bounds_A; lra.
Defined.

Lemma broadcast_single_right (f : float64 -> float64 -> float64)
  (xs : list float64) (b : float64) :
  broadcast f (Array xs) (Array [b]) = Ok (Array (map (fun a => f a b) xs)).
Proof.
  destruct xs as [| a [| a' xs]]; reflexivity.
Qed.

(** X9.  A values array of a single element is not a mismatch: it is
    broadcast, so the likelihood is the one of the data set that pairs
    every time with that one value, and no error is raised. *)
Theorem single_value_is_broadcast (A B P t0 y0 : float64) (ts : list float64) :
  Zeus.log_like (Array ts) (Array [y0]) [A; B; P; t0]
  = Zeus.log_like (times (map (fun ti => (ti, y0)) ts))
                  (values (map (fun ti => (ti, y0)) ts)) [A; B; P; t0].
Proof.
  rewrite log_like_sine.
  unfold Zeus.log_like. rewrite sine_model_array. cbn [bind].
  unfold sum_of, pow2, lift1, lift2, var, const. cbn [bind].
  rewrite broadcast_single_right. cbn [bind broadcast ufunc sum].
  unfold neg_half_sum_sq. rewrite !map_map. reflexivity.
Qed.

(** ** The two periods of the periodic model *)

Lemma sin_shift (x : R) : Rtrigo_def.sin (x + 2 * PI) = Rtrigo_def.sin x.
Proof. rewrite sin_plus, sin_2PI, cos_2PI. ring. Qed.

Lemma sine_at_phase (A B P t0 t : R) :
  sine_at (Num A) (Num B) (Num P) (Num (t0 + 1)) (Num t)
  = sine_at (Num A) (Num B) (Num P) (Num t0) (Num t).
Proof.
  destruct (Req_dec_T P 0) as [-> | HP].
  - now rewrite !sine_at_zero_period.
  - rewrite !sine_at_real by exact HP. do 3 f_equal.
    replace ((t / P + (t0 + 1)) * 2 * PI) with ((t / P + t0) * 2 * PI + 2 * PI)
      by ring.
    apply sin_shift.
Qed.

Lemma log_like_phase (A B P t0 : R) (robs : list (R * R)) :
  Zeus.log_like (times (real_obs robs)) (values (real_obs robs))
                [Num A; Num B; Num P; Num (t0 + 1)]
  = Zeus.log_like (times (real_obs robs)) (values (real_obs robs))
                  [Num A; Num B; Num P; Num t0].
Proof.
  rewrite !log_like_sine. unfold neg_half_sum_sq, real_obs.
  rewrite !map_map. do 3 f_equal.
  apply map_ext. intros [t y]. unfold sq_residual, predict.
  rewrite !sine_model_scalar. cbn [fst snd].
  now rewrite sine_at_phase.
Qed.

(** X10.  Over the reals the phase [t0] has period 1: on real data the
    likelihood at [t0 + 1] is the likelihood at [t0], and so the posterior
    has the same value at the two ends, 0 and 1, of the bound of [t0]
    (both ends are inside the bound). *)
Theorem phase_has_period_one (A B P t0 : R) (robs : list (R * R)) :
  Zeus.log_like (times (real_obs robs)) (values (real_obs robs))
                [Num A; Num B; Num P; Num (t0 + 1)]
  = Zeus.log_like (times (real_obs robs)) (values (real_obs robs))
                  [Num A; Num B; Num P; Num t0] /\
  Zeus.log_post (times (real_obs robs)) (values (real_obs robs))
                [Num A; Num B; Num P; Num 1]
  = Zeus.log_post (times (real_obs robs)) (values (real_obs robs))
                  [Num A; Num B; Num P; Num 0].
Proof.
  split; [apply log_like_phase |].
  unfold Zeus.log_post. rewrite !log_prior_test.
  assert (He : outside_test (Num A) (Num B) (Num P) (Num 1)
               = outside_test (Num A) (Num B) (Num P) (Num 0)).
  { unfold outside_test, gt, lt.
    rewrite (Rltb_false 1 0.0), (Rltb_false 1.0 1), (Rltb_false 0 0.0),
      (Rltb_false 1.0 0) by lra.
    reflexivity. }
  rewrite He.
  destruct (outside_test (Num A) (Num B) (Num P) (Num 0)); [reflexivity |].
  cbn [bind isfinite negb].
  replace 1 with (0 + 1) by lra. now rewrite log_like_phase.
Qed.

(** X11.  Over the reals, and for a period [P] that is not zero, the model
    repeats in time with period [P]. *)
Theorem model_repeats_with_period (A B P t0 t : R) :
  P <> 0 ->
  Zeus.sine_model [Num A; Num B; Num P; Num t0] (Scalar (Num (t + P)))
  = Zeus.sine_model [Num A; Num B; Num P; Num t0] (Scalar (Num t)) /\
  Arianna.model_A [Num A; Num B; Num P; Num t0] (Scalar (Num (t + P)))
  = Arianna.model_A [Num A; Num B; Num P; Num t0] (Scalar (Num t)).
Proof.
  intros HP. rewrite model_A_eq.
  assert (H : sine_at (Num A) (Num B) (Num P) (Num t0) (Num (t + P))
              = sine_at (Num A) (Num B) (Num P) (Num t0) (Num t)).
  { rewrite !sine_at_real by exact HP. do 3 f_equal.
    replace (((t + P) / P + t0) * 2 * PI) with ((t / P + t0) * 2 * PI + 2 * PI)
      by (field; exact HP).
    apply sin_shift. }
  rewrite !sine_model_scalar, H. split; reflexivity.
Qed.

Lemma model_repeats_with_period_witness :
  Zeus.sine_model [Num 4.3; Num 1.0; Num 3.1; Num 0.4] (Scalar (Num (0.5 + 3.1)))
  = Zeus.sine_model [Num 4.3; Num 1.0; Num 3.1; Num 0.4] (Scalar (Num 0.5)) /\
  Arianna.model_A [Num 4.3; Num 1.0; Num 3.1; Num 0.4] (Scalar (Num (0.5 + 3.1)))
  = Arianna.model_A [Num 4.3; Num 1.0; Num 3.1; Num 0.4] (Scalar (Num 0.5)).
Proof.
  apply (model_repeats_with_period 4.3 1.0 3.1 0.4 0.5). lra.
Defined.

(** ** When the generator succeeds, and what it returns *)

Section GeneratorOutput.
Context {G : Random.RandomState}.

Lemma uniform_draws_outputs (low high : R) (n : nat) (st : Random.state G) :
  Random.uniform_draws G low high n st
  = (map (fun u => Num (low + (high - low) * u))
         (outputs (Random.random_sample G) n st),
     advance (Random.random_sample G) n st).
Proof.
  revert st. induction n as [| n IH]; intros st; simpl; [reflexivity |].
  destruct (Random.random_sample G st) as [u st1]. cbn [fst snd].
  now rewrite IH.
Qed.


Lemma outputs_length {S : Type} (draw : S -> R * S) (n : nat) (st : S) :
  length (outputs draw n st) = n.
Proof.
  revert st. induction n as [| n IH]; intros st; simpl; [reflexivity |].
  now rewrite IH.
Qed.

Lemma zeus_generate_eq_any (seed n_data : Z) (low high : R)
  (params : list float64) (yerr : float64) (st : Random.state G) :
  Zeus.generate seed n_data low high params yerr st
  = Arianna.generate seed n_data low high params yerr st.
Proof.
  unfold Zeus.generate, Zeus.times_cell, Zeus.values_cell, Arianna.generate,
    Random.bindM.
  rewrite model_A_eq.
  destruct (Random.seed seed st) as [[[] | e] st0]; [| reflexivity].
  destruct (Random.uniform low high n_data st0) as [[t | e] st1]; [| reflexivity].
  unfold Random.lift.
  destruct (Zeus.sine_model params t) as [y_true | e]; [| reflexivity].
  destruct (Random.normal y_true yerr st1) as [[y | e] st2]; reflexivity.
Qed.

Lemma seed_invalid (seed : Z) (st : Random.state G) :
  ~ valid_seed seed -> Random.seed seed st = (Raise ValueError, st).
Proof.
  intros H. unfold Random.seed.
  destruct (Z.leb_spec 0 seed); destruct (Z.ltb_spec seed (2 ^ 32));
    try reflexivity.
  exfalso. apply H. split; assumption.
Qed.

Lemma sine_model_wrong_length (params : list float64) (t : value) :
  length params <> 4%nat -> Zeus.sine_model params t = Raise ValueError.
Proof.
  intros H. destruct params as [| a [| b [| c [| d [| e l]]]]];
    try reflexivity.
  exfalso. apply H. reflexivity.
Qed.

(** The generator on an input one of its calls does not take: it raises,
    with a [ValueError] unless numpy has refused the count before. *)
Lemma arianna_generate_fails (seed n_data : Z) (low high : R)
  (params : list float64) (yerr : float64) (st : Random.state G) :
  ~ valid_seed seed \/ (n_data < 0)%Z \/ length params <> 4%nat
  \/ lt yerr (Num 0) = true ->
  exists e : exn,
    fst (Arianna.generate seed n_data low high params yerr st) = Raise e /\
    (e = ValueError \/ Random.refuses G [n_data] = Some e).
Proof.
  intros H. unfold Arianna.generate, Random.bindM.
  destruct (Z.leb_spec 0 seed) as [H0 | H0];
    [destruct (Z.ltb_spec seed (2 ^ 32)) as [H1 | H1] |];
    try (rewrite seed_invalid by (unfold valid_seed; lia);
         exists ValueError; split; [reflexivity | left; reflexivity]).
  rewrite (seed_valid seed st (conj H0 H1)).
  unfold Random.uniform.
  destruct (Z.ltb_spec n_data 0) as [Hn | Hn];
    [exists ValueError; split; [reflexivity | left; reflexivity] |].
  destruct (Random.refuses G [n_data]) as [e |] eqn:Hfit;
    [exists e; split; [reflexivity | right; reflexivity] |].
  exists ValueError. split; [| left; reflexivity].
  destruct (Random.uniform_draws G low high (Z.to_nat n_data)
              (Random.init_by_seed G seed)) as [ts st1].
  unfold Random.lift.
  destruct (Nat.eq_dec (length params) 4) as [Hl | Hl];
    [| rewrite model_A_eq, sine_model_wrong_length by exact Hl; reflexivity].
  destruct params as [| A [| B [| P [| t0 [| e l]]]]]; try discriminate.
  rewrite model_A_eq, sine_model_array. unfold Random.normal.
  destruct H as [H | [H | [H | H]]].
  - exfalso. apply H. split; assumption.
  - lia.
  - contradiction.
  - rewrite H. reflexivity.
Qed.

End GeneratorOutput.

(** X12.  The data generator raises, and returns no observation set,
    whenever the seed is not one numpy accepts, or the count is negative, or
    the vector of true parameters does not have four entries, or the noise
    level is negative.  Both notebooks raise the same error: a [ValueError],
    unless numpy has refused the count as too large before the faulty call
    is reached. *)
Theorem generate_raises_on_bad_input (G : Random.RandomState)
  (seed n_data : Z) (low high : R) (params : list float64) (yerr : float64)
  (st : Random.state G) :
  ~ valid_seed seed \/ (n_data < 0)%Z \/ length params <> 4%nat
  \/ lt yerr (Num 0) = true ->
  exists e : exn,
    fst (Zeus.generate seed n_data low high params yerr st) = Raise e /\
    fst (Arianna.generate seed n_data low high params yerr st) = Raise e /\
    (e = ValueError \/ Random.refuses G [n_data] = Some e).
Proof.
  intros Hbad. rewrite zeus_generate_eq_any.
  destruct (arianna_generate_fails seed n_data low high params yerr st Hbad)
    as (e & He & Hkind).
  exists e. auto.
Qed.

Lemma generate_raises_on_bad_input_witness :
  (exists e : exn,
     fst (Zeus.generate (G := lcg) 42 50 0 5
            [Num 4.3; Num 1.0; Num 3.1] (Num 1.0) 0%Z) = Raise e /\
     fst (Arianna.generate (G := lcg) 42 50 0 5
            [Num 4.3; Num 1.0; Num 3.1] (Num 1.0) 0%Z) = Raise e /\
     (e = ValueError \/ Random.refuses lcg [50%Z] = Some e)) /\
  (exists e : exn,
     fst (Zeus.generate (G := lcg) (2 ^ 32) 50 0 5
            [Num 4.3; Num 1.0; Num 3.1; Num 0.4] (Num 1.0) 0%Z) = Raise e /\
     fst (Arianna.generate (G := lcg) (2 ^ 32) 50 0 5
            [Num 4.3; Num 1.0; Num 3.1; Num 0.4] (Num 1.0) 0%Z) = Raise e /\
     (e = ValueError \/ Random.refuses lcg [50%Z] = Some e)).
Proof.
  split.
  - apply (generate_raises_on_bad_input lcg 42 50 0 5
             [Num 4.3; Num 1.0; Num 3.1] (Num 1.0) 0%Z).
    right. right. left. discriminate.
  - apply (generate_raises_on_bad_input lcg (2 ^ 32) 50 0 5
             [Num 4.3; Num 1.0; Num 3.1; Num 0.4] (Num 1.0) 0%Z).
    left. unfold valid_seed. lia.
Defined.

Lemma outputs_in_range {S : Type} (draw : S -> R * S) (Q : R -> Prop)
  (n : nat) (st : S) :
  (forall st', Q (fst (draw st'))) -> Forall Q (outputs draw n st).
Proof.
  intros H. revert st. induction n as [| n IH]; intros st; simpl;
    constructor; auto.
Qed.

(** X13.  When the uniform draw of the generator returns numbers in [0, 1),
    every observation time the generator makes (for a count numpy does not
    refuse) lies in the time domain: at least [low] and below [high]. *)
Theorem generated_times_in_domain (G : Random.RandomState)
  (seed n_data : Z) (low high : R) (A B P t0 yerr : float64)
  (st : Random.state G) :
  (forall st', 0 <= fst (Random.random_sample G st') < 1) ->
  low < high ->
  valid_seed seed -> (0 <= n_data)%Z -> Random.refuses G [n_data] = None ->
  lt yerr (Num 0) = false ->
  exists (rts : list R) (y : value),
    fst (Zeus.generate seed n_data low high [A; B; P; t0] yerr st)
      = Ok (Array (map Num rts), y) /\
    fst (Arianna.generate seed n_data low high [A; B; P; t0] yerr st)
      = Ok (Array (map Num rts), y) /\
    length rts = Z.to_nat n_data /\
    Forall (fun r => low <= r < high) rts.
Proof.
  intros Hu Hlh Hs Hn Hfit Hy. rewrite zeus_generate_eq_any.
  unfold Arianna.generate, Random.bindM.
  rewrite (seed_valid seed st Hs). unfold Random.uniform.
  destruct (Z.ltb_spec n_data 0) as [Hlt | _]; [lia |].
  rewrite Hfit, uniform_draws_outputs.
  set (us := outputs (Random.random_sample G) (Z.to_nat n_data)
                     (Random.init_by_seed G seed)).
  rewrite model_A_eq, sine_model_array. unfold Random.lift, Random.normal.
  rewrite Hy.
  match goal with
  | |- context [Random.normal_draws G yerr ?ms ?s1] =>
      destruct (Random.normal_draws G yerr ms s1) as [ys st2]
  end.
  exists (map (fun u => low + (high - low) * u) us), (Array ys).
  rewrite map_map. repeat split.
  - rewrite length_map. apply outputs_length.
  - apply Forall_map.
    apply (Forall_impl _ (P := fun u => 0 <= u < 1)).
    + intros u [Hu0 Hu1]. split; nra.
    + apply outputs_in_range. exact Hu.
Qed.

Lemma lcg_uniform_range (st : Z) : 0 <= IZR (st mod 64) / 64 < 1.
Proof.
  pose proof (Z.mod_pos_bound st 64 ltac:(lia)) as [H0 H1].
  apply IZR_le in H0. apply IZR_lt in H1.
  split; [apply Rmult_le_pos; lra | lra].
Qed.

Lemma generated_times_in_domain_witness :
  exists (rts : list R) (y : value),
    fst (Zeus.generate (G := lcg) 42 50 0 5
           [Num 4.3; Num 1.0; Num 3.1; Num 0.4] (Num 1.0) 0%Z)
      = Ok (Array (map Num rts), y) /\
    fst (Arianna.generate (G := lcg) 42 50 0 5
           [Num 4.3; Num 1.0; Num 3.1; Num 0.4] (Num 1.0) 0%Z)
      = Ok (Array (map Num rts), y) /\
    length rts = Z.to_nat 50 /\
    Forall (fun r => 0 <= r < 5) rts.
Proof.
  apply (generated_times_in_domain lcg 42 50 0 5
           (Num 4.3) (Num 1.0) (Num 3.1) (Num 0.4) (Num 1.0) 0%Z).
  - exact lcg_uniform_range.
  - lra.
  - exact valid_seed_42.
  - lia.
  - reflexivity.
  - exact yerr_not_negative.
Defined.

(** ** Generating data, then evaluating the likelihood on them *)










(** ** The true parameters against a grid of parameter vectors *)







(** ** The likelihood of the constant model *)

Lemma sq_residual_offset_real (B ti yi : R) :
  sq_residual Arianna.model_B [Num B] Arianna.yerr (Num ti, Num yi)
  = Num (Rsqr (B - yi)).
Proof.
  unfold sq_residual, predict. rewrite model_B_scalar. cbn [fst snd].
  rewrite offset_at_finite_time.
  unfold Arianna.yerr, square, sub, div, neg, add, mul.
  rewrite Reqb_false by lra.
  f_equal. unfold Rsqr. replace ((B + - yi) / 1.0) with (B - yi) by lra.
  reflexivity.
Qed.

(** X16.  On real data the likelihood of the constant model is -0.5 times
    the sum of the squares of [B - y_i]: the observation times do not enter
    it at all. *)
Theorem constant_model_likelihood (B : R) (robs : list (R * R)) :
  Arianna.log_like_B (times (real_obs robs)) (values (real_obs robs)) [Num B]
  = Ok (Num (-0.5 * sum_sq (map (fun yi => B - yi) (map snd robs)))).
Proof.
  rewrite log_like_offset. unfold neg_half_sum_sq, real_obs, sum_sq.
  rewrite !map_map.
  rewrite (map_ext _ (fun ob => Num (Rsqr (B - snd ob))))
    by (intros [ti yi]; apply sq_residual_offset_real).
  rewrite <- (map_map (fun ob => Rsqr (B - snd ob)) Num), sum_of_reals.
  reflexivity.
Qed.

Lemma sum_sq_expand (B : R) (ys : list R) :
  sum_sq (map (fun yi => B - yi) ys)
  = INR (length ys) * (B * B) - 2 * B * fold_right Rplus 0 ys + sum_sq ys.
Proof.
  unfold sum_sq. induction ys as [| y ys IH]; [simpl; ring |].
  cbn [map fold_right length]. rewrite IH, S_INR. unfold Rsqr. ring.
Qed.

(** X17.  Over the reals the likelihood of the constant model is greatest
    at the mean of the observed values: no offset [B] gives a larger value
    than the mean does. *)
Theorem constant_model_maximum_at_mean (B : R) (robs : list (R * R)) :
  robs <> [] ->
  exists v vm : R,
    Arianna.log_like_B (times (real_obs robs)) (values (real_obs robs)) [Num B]
      = Ok (Num v) /\
    Arianna.log_like_B (times (real_obs robs)) (values (real_obs robs))
                       [Num (mean (map snd robs))]
      = Ok (Num vm) /\
    v <= vm.
Proof.
  intros Hne. rewrite !constant_model_likelihood.
  eexists. eexists. split; [reflexivity | split; [reflexivity |]].
  rewrite !sum_sq_expand.
  set (ys := map snd robs).
  assert (Hn : 0 < INR (length ys)).
  { apply lt_0_INR. unfold ys. rewrite length_map.
    destruct robs; [contradiction | simpl; lia]. }
  set (n := INR (length ys)) in *.
  set (m := mean ys).
  assert (HS : fold_right Rplus 0 ys = m * n).
  { unfold m, mean. fold n. field. lra. }
  rewrite HS.
  pose proof (Rle_0_sqr (B - m)) as Hsq. unfold Rsqr in Hsq.
  nra.
Qed.

Lemma constant_model_maximum_at_mean_witness :
  exists v vm : R,
    Arianna.log_like_B (times (real_obs [(0.5, 1.0); (2.5, 3.0)]))
                       (values (real_obs [(0.5, 1.0); (2.5, 3.0)])) [Num 0.5]
      = Ok (Num v) /\
    Arianna.log_like_B (times (real_obs [(0.5, 1.0); (2.5, 3.0)]))
                       (values (real_obs [(0.5, 1.0); (2.5, 3.0)]))
                       [Num (mean (map snd [(0.5, 1.0); (2.5, 3.0)]))]
      = Ok (Num vm) /\
    v <= vm.
Proof.
  apply (constant_model_maximum_at_mean 0.5 [(0.5, 1.0); (2.5, 3.0)]).
  discriminate.
Defined.

(** ** The posterior predictive loops *)

Section Predictive.
Context {G : Random.RandomState}.

Lemma advance_add {S : Type} (draw : S -> R * S) (a b : nat) (st : S) :
  advance draw (a + b) st = advance draw b (advance draw a st).
Proof.
  revert st. induction a as [| a IH]; intros st; simpl; [reflexivity |].
  apply IH.
Qed.

Lemma normal_draws_state (scale : float64) (locs : list float64)
  (st : Random.state G) :
  snd (Random.normal_draws G scale locs st)
  = advance (Random.gauss G) (length locs) st.
Proof.
  revert st. induction locs as [| loc locs IH]; intros st; simpl; [reflexivity |].
  unfold Random.normal_draw.
  destruct (Random.gauss G st) as [g st1]. cbn [snd].
  specialize (IH st1).
  destruct (Random.normal_draws G scale locs st1) as [xs st2].
  exact IH.
Qed.

(** One pass of the loop body on an array of predictions. *)
Lemma normal_on_array (ys : list float64) (st : Random.state G) :
  exists xs : list float64,
    Random.normal (Array ys) (Num 1.0) st
    = (Ok (Array xs), advance (Random.gauss G) (length ys) st) /\
    length xs = length ys.
Proof.
  unfold Random.normal. rewrite yerr_not_negative.
  pose proof (normal_draws_length (Num 1.0) ys st) as Hl.
  pose proof (normal_draws_state (Num 1.0) ys st) as Hs.
  destruct (Random.normal_draws G (Num 1.0) ys st) as [xs st'].
  cbn [fst snd] in *. subst st'. exists xs. split; [reflexivity | exact Hl].
Qed.

Variable model : list float64 -> value -> result value.
Variable ts : list float64.


Lemma loop_accepts (samples : list (list float64)) (obs : list value)
  (st : Random.state G) :
  Forall (accepted model ts) samples ->
  exists rows : list value,
    Arianna.predictive_loop model samples (Array ts) obs st
    = (Ok (obs ++ rows),
       advance (Random.gauss G) (length samples * length ts) st) /\
    length rows = length samples /\
    Forall (row_of_length (length ts)) rows.
Proof.
  intros H. revert obs st.
  induction H as [| s samples (ys & Hm & Hl) _ IH]; intros obs st.
  - exists []. rewrite app_nil_r. repeat split. constructor.
  - cbn [Arianna.predictive_loop]. unfold Random.bindM at 1, Random.lift.
    rewrite Hm. unfold Random.bindM at 1. unfold Arianna.yerr.
    destruct (normal_on_array ys st) as (xs & Hn & Hx). rewrite Hn.
    destruct (IH (obs ++ [Array xs]) (advance (Random.gauss G) (length ys) st))
      as (rows & Hloop & Hrows & Hshape).
    exists (Array xs :: rows). rewrite Hloop, <- app_assoc.
    cbn [length Nat.mul]. rewrite advance_add, Hl.
    repeat split.
    + now rewrite Hrows.
    + constructor; [| exact Hshape].
      exists xs. split; [reflexivity | congruence].
Qed.

Lemma loop_refuses (samples : list (list float64)) (obs : list value)
  (st : Random.state G) :
  (forall s, In s samples -> (accepted model ts) s \/ (refused model ts) s) ->
  Exists (refused model ts) samples ->
  fst (Arianna.predictive_loop model samples (Array ts) obs st)
  = Raise ValueError.
Proof.
  intros Hall Hex. revert obs st.
  induction samples as [| s samples IH]; intros obs st.
  - inversion Hex.
  - cbn [Arianna.predictive_loop]. unfold Random.bindM at 1, Random.lift.
    destruct (Hall s (or_introl eq_refl)) as [(ys & Hm & Hl) | Hr].
    + rewrite Hm. unfold Random.bindM at 1. unfold Arianna.yerr.
      destruct (normal_on_array ys st) as (xs & Hn & Hx). rewrite Hn.
      apply IH.
      * intros s' Hin. apply Hall. right. exact Hin.
      * inversion Hex as [? ? Hr | ? ? Hrest]; subst; [| exact Hrest].
        unfold refused in Hr. rewrite Hm in Hr. discriminate.
    + unfold refused in Hr. rewrite Hr. reflexivity.
Qed.

Lemma loop_accumulates (samples : list (list float64)) (t_range : value)
  (obs : list value) (st : Random.state G) :
  Arianna.predictive_loop model samples t_range obs st
  = Random.bindM (Arianna.predictive_loop model samples t_range [])
      (fun rows => Random.ret (obs ++ rows)) st.
Proof.
  revert obs st. induction samples as [| s samples IH]; intros obs st.
  - cbn. now rewrite app_nil_r.
  - cbn [Arianna.predictive_loop].
    unfold Random.bindM, Random.lift in *.
    destruct (model s t_range) as [m | e]; [| reflexivity].
    destruct (Random.normal m Arianna.yerr st) as [[o | e] st1]; [| reflexivity].
    rewrite (IH (obs ++ [o])), (IH ([] ++ [o])).
    destruct (Arianna.predictive_loop model samples t_range [] st1)
      as [[rows | e] st2]; [| reflexivity].
    unfold Random.ret. now rewrite <- app_assoc.
Qed.

Lemma loop_append (c1 c2 : list (list float64)) (t_range : value)
  (obs : list value) (st : Random.state G) :
  Arianna.predictive_loop model (c1 ++ c2) t_range obs st
  = Random.bindM (Arianna.predictive_loop model c1 t_range obs)
      (fun rows => Arianna.predictive_loop model c2 t_range rows) st.
Proof.
  revert obs st. induction c1 as [| s c1 IH]; intros obs st.
  - reflexivity.
  - cbn [app Arianna.predictive_loop].
    unfold Random.bindM, Random.lift in *.
    destruct (model s t_range) as [m | e]; [| reflexivity].
    destruct (Random.normal m Arianna.yerr st) as [[o | e] st1]; [| reflexivity].
    apply IH.
Qed.

End Predictive.

Section PredictiveChecks.
Context {G : Random.RandomState}.

Lemma zeus_loop_eq (chain : list (list float64)) (t_range : value)
  (obs : list value) (st : Random.state G) :
  Zeus.predictive_loop chain t_range obs st
  = Arianna.predictive_loop Zeus.sine_model chain t_range obs st.
Proof.
  revert obs st. induction chain as [| s chain IH]; intros obs st.
  - reflexivity.
  - cbn [Zeus.predictive_loop Arianna.predictive_loop].
    change Arianna.yerr with Zeus.yerr.
    unfold Random.bindM, Random.lift.
    destruct (Zeus.sine_model s t_range) as [m | e]; [| reflexivity].
    destruct (Random.normal m Zeus.yerr st) as [[o | e] st1]; [| reflexivity].
    apply IH.
Qed.

Lemma sine_model_sorts (ts s : list float64) :
  (length s = 4%nat -> accepted Zeus.sine_model ts s) /\
  (length s <> 4%nat -> refused Zeus.sine_model ts s).
Proof.
  split; intros H.
  - destruct s as [| A [| B [| P [| t0 [| e l]]]]]; try discriminate.
    exists (map (sine_at A B P t0) ts).
    split; [apply sine_model_array | apply length_map].
  - apply sine_model_wrong_length. exact H.
Qed.

Lemma model_B_sorts (ts s : list float64) :
  (length s = 1%nat -> accepted Arianna.model_B ts s) /\
  (length s <> 1%nat -> refused Arianna.model_B ts s).
Proof.
  split; intros H.
  - destruct s as [| B [| e l]]; try discriminate.
    exists (map (offset_at B) ts).
    split; [apply model_B_array | apply length_map].
  - destruct s as [| B [| e l]]; try reflexivity.
    exfalso. apply H. reflexivity.
Qed.

End PredictiveChecks.

(** X18.  The posterior predictive loop returns one simulated data set per
    sample of the chain, each with one value per time, and draws exactly
    (number of samples) x (number of times) normal deviates, provided every
    sample has four entries; a sample of any other length makes it raise. *)
Theorem predictive_one_row_per_sample (G : Random.RandomState)
  (chain : list (list float64)) (ts : list float64) (st : Random.state G) :
  (Forall (fun s => length s = 4%nat) chain ->
   exists rows : list value,
     Zeus.posterior_predictive chain (Array ts) st
     = (Ok rows, advance (Random.gauss G) (length chain * length ts) st) /\
     length rows = length chain /\
     Forall (row_of_length (length ts)) rows) /\
  (Exists (fun s => length s <> 4%nat) chain ->
   fst (Zeus.posterior_predictive chain (Array ts) st) = Raise ValueError).
Proof.
  unfold Zeus.posterior_predictive. rewrite zeus_loop_eq. split; intros H.
  - apply (loop_accepts Zeus.sine_model ts chain [] st).
    apply (Forall_impl _ (P := fun s => length s = 4%nat)); [| exact H].
    intros s. apply sine_model_sorts.
  - apply loop_refuses.
    + intros s _. destruct (Nat.eq_dec (length s) 4) as [He | Hne].
      * left. now apply sine_model_sorts.
      * right. now apply sine_model_sorts.
    + apply (Exists_impl (P := fun s => length s <> 4%nat)); [| exact H].
      intros s. apply sine_model_sorts.
Qed.

Lemma predictive_one_row_per_sample_witness :
  (exists rows : list value,
     Zeus.posterior_predictive (G := lcg)
       [[Num 4.3; Num 1.0; Num 3.1; Num 0.4]; [Num 4.0; Num 1.2; Num 3.0; Num 0.5]]
       (Array [Num 0.0; Num 2.5; Num 5.0]) 0%Z
     = (Ok rows, advance (Random.gauss lcg) (2 * 3) 0%Z) /\
     length rows = 2%nat /\
     Forall (row_of_length 3) rows) /\
  fst (Zeus.posterior_predictive (G := lcg)
         [[Num 4.3; Num 1.0; Num 3.1; Num 0.4]; [Num 4.0; Num 1.2]]
         (Array [Num 0.0; Num 2.5; Num 5.0]) 0%Z) = Raise ValueError.
Proof.
  split.
  - apply (proj1 (predictive_one_row_per_sample lcg
                    [[Num 4.3; Num 1.0; Num 3.1; Num 0.4];
                     [Num 4.0; Num 1.2; Num 3.0; Num 0.5]]
                    [Num 0.0; Num 2.5; Num 5.0] 0%Z)).
    repeat constructor.
  - apply (proj2 (predictive_one_row_per_sample lcg
                    [[Num 4.3; Num 1.0; Num 3.1; Num 0.4]; [Num 4.0; Num 1.2]]
                    [Num 0.0; Num 2.5; Num 5.0] 0%Z)).
    right. left. simpl. lia.
Defined.

(** X19.  The loop over a chain made of two parts is the loop over the
    first part followed, on the generator state the first part leaves, by
    the loop over the second, with the simulated data sets concatenated. *)
Theorem predictive_of_concatenation (G : Random.RandomState)
  (c1 c2 : list (list float64)) (t_range : value) (st : Random.state G) :
  Zeus.posterior_predictive (c1 ++ c2) t_range st
  = Random.bindM (Zeus.posterior_predictive c1 t_range)
      (fun o1 =>
         Random.bindM (Zeus.posterior_predictive c2 t_range)
           (fun o2 => Random.ret (o1 ++ o2))) st.
Proof.
  unfold Zeus.posterior_predictive.
  rewrite zeus_loop_eq, loop_append.
  unfold Random.bindM at 1 2. rewrite zeus_loop_eq.
  destruct (Arianna.predictive_loop Zeus.sine_model c1 t_range [] st)
    as [[o1 | e] st1]; [| reflexivity].
  rewrite loop_accumulates. unfold Random.bindM. rewrite zeus_loop_eq.
  reflexivity.
Qed.

(** X20.  In the model-comparison notebook the loop of model B starts on
    the generator state the loop of model A leaves: with samples of four
    and of one entries the two loops return one row per sample each, and
    the rows of model B are those its loop gives after
    (samples of A) x (times) normal deviates have been drawn. *)
Theorem predictive_loops_in_sequence (G : Random.RandomState)
  (samples_A samples_B : list (list float64)) (ts : list float64)
  (st : Random.state G) :
  Forall (fun s => length s = 4%nat) samples_A ->
  Forall (fun s => length s = 1%nat) samples_B ->
  exists rows_A rows_B : list value,
    Arianna.posterior_predictive samples_A samples_B (Array ts) st
    = (Ok (rows_A, rows_B),
       advance (Random.gauss G)
               (length samples_B * length ts)
               (advance (Random.gauss G) (length samples_A * length ts) st)) /\
    length rows_A = length samples_A /\
    length rows_B = length samples_B /\
    Forall (row_of_length (length ts)) rows_A /\
    Forall (row_of_length (length ts)) rows_B /\
    fst (Arianna.predictive_loop Arianna.model_B samples_B (Array ts) []
           (advance (Random.gauss G) (length samples_A * length ts) st))
    = Ok rows_B.
Proof.
  intros HA HB.
  destruct (loop_accepts Arianna.model_A ts samples_A [] st) as (rA & HlA & HnA & HsA).
  { apply (Forall_impl _ (P := fun s => length s = 4%nat)); [| exact HA].
    intros s. rewrite model_A_eq. apply sine_model_sorts. }
  destruct (loop_accepts Arianna.model_B ts samples_B []
              (advance (Random.gauss G) (length samples_A * length ts) st))
    as (rB & HlB & HnB & HsB).
  { apply (Forall_impl _ (P := fun s => length s = 1%nat)); [| exact HB].
    intros s. apply model_B_sorts. }
  exists rA, rB. unfold Arianna.posterior_predictive, Random.bindM.
  rewrite HlA. cbn [app]. rewrite HlB. cbn [app fst].
  repeat split; assumption.
Qed.

Lemma predictive_loops_in_sequence_witness :
  exists rows_A rows_B : list value,
    Arianna.posterior_predictive (G := lcg)
      [[Num 1.0; Num 1.0; Num 3.0; Num 0.0]] [[Num 1.0]; [Num 1.5]]
      (Array [Num 0.0; Num 2.5; Num 5.0]) 0%Z
    = (Ok (rows_A, rows_B),
       advance (Random.gauss lcg) (2 * 3) (advance (Random.gauss lcg) (1 * 3) 0%Z)) /\
    length rows_A = 1%nat /\
    length rows_B = 2%nat /\
    Forall (row_of_length 3) rows_A /\
    Forall (row_of_length 3) rows_B /\
    fst (Arianna.predictive_loop (G := lcg) Arianna.model_B [[Num 1.0]; [Num 1.5]]
           (Array [Num 0.0; Num 2.5; Num 5.0]) []
           (advance (Random.gauss lcg) (1 * 3) 0%Z))
    = Ok rows_B.
Proof.
  apply (predictive_loops_in_sequence lcg
           [[Num 1.0; Num 1.0; Num 3.0; Num 0.0]] [[Num 1.0]; [Num 1.5]]
           [Num 0.0; Num 2.5; Num 5.0] 0%Z).
  - repeat constructor.
  - repeat constructor.
Defined.

(** ** Where the walkers start *)

Section Walkers.
Context {G : Random.RandomState}.

Lemma draw_many_spec {A : Type} (draw : Random.state G -> A * Random.state G)
  (Q : A -> Prop) (n : nat) (st : Random.state G) :
  (forall st', Q (fst (draw st'))) ->
  length (fst (Random.draw_many draw n st)) = n /\
  Forall Q (fst (Random.draw_many draw n st)).
Proof.
  intros H. revert st. induction n as [| n IH]; intros st; simpl.
  - split; [reflexivity | constructor].
  - pose proof (H st) as Hx. destruct (draw st) as [x st1].
    destruct (IH st1) as [Hl Hq].
    destruct (Random.draw_many draw n st1) as [xs st2].
    cbn [fst] in *. split; [simpl; now rewrite Hl | constructor; assumption].
Qed.

Lemma standard_normal_bounded (M : R) (st : Random.state G) :
  deviates_bounded G M ->
  within M 0 (fst (Random.standard_normal st)).
Proof.
  intros H. unfold Random.standard_normal. specialize (H st).
  destruct (Random.gauss G st) as [g st']. cbn [fst] in *.
  exists g. split; [reflexivity |]. now rewrite Rminus_0_r.
Qed.

(** A row of [n] deviates, and a block of [k] such rows. *)
Lemma randn_rows (M : R) (k n : nat) (st : Random.state G) :
  deviates_bounded G M ->
  length (fst (Random.draw_many (Random.draw_many Random.standard_normal n) k st)) = k /\
  Forall (fun row => length row = n /\ Forall (within M 0) row)
         (fst (Random.draw_many (Random.draw_many Random.standard_normal n) k st)).
Proof.
  intros H. apply draw_many_spec. intros st'.
  apply draw_many_spec. intros st''. now apply standard_normal_bounded.
Qed.

Lemma shifted_entry (M c : R) (x : float64) :
  within M 0 x ->
  within (0.001 * M) c (add (Num c) (mul (Num 0.001) x)).
Proof.
  intros (g & -> & Hg). exists (c + 0.001 * g). split; [reflexivity |].
  replace (c + 0.001 * g - c) with (0.001 * g) by ring.
  rewrite Rminus_0_r in Hg.
  rewrite Rabs_mult, (Rabs_pos_eq 0.001) by lra.
  apply Rmult_le_compat_l; [lra | exact Hg].
Qed.

Lemma within_bounds (d c : R) (x : float64) :
  within d c x -> exists r : R, x = Num r /\ c - d <= r <= c + d.
Proof.
  intros (r & -> & H). exists r. split; [reflexivity |].
  unfold Rabs in H. destruct (Rcase_abs (r - c)); lra.
Qed.

End Walkers.

Lemma walker_A_in_support (row : list float64) :
  length row = 4%nat -> Forall (within 200 0) row ->
  Arianna.log_prior_A (map (add (Num 0.5)) (map (mul (Num 0.001)) row))
  = Ok (Num 0.0).
Proof.
  intros Hl Hq.
  destruct row as [| a [| b [| p [| q [| e l]]]]]; try discriminate.
  inversion Hq as [| ? ? Ha Hq1]; subst.
  inversion Hq1 as [| ? ? Hb Hq2]; subst.
  inversion Hq2 as [| ? ? Hp Hq3]; subst.
  inversion Hq3 as [| ? ? Hq' _]; subst.
  apply (shifted_entry 200 0.5), within_bounds in Ha, Hb, Hp, Hq'.
  destruct Ha as (ra & Ea & Ha), Hb as (rb & Eb & Hb),
           Hp as (rp & Ep & Hp), Hq' as (rq & Eq & Hq').
  cbn [map]. rewrite Ea, Eb, Ep, Eq, log_prior_A_eq.
  apply log_prior_inside. unfold in_bounds_A. lra.
Qed.

Lemma walker_B_in_support (row : list float64) :
  length row = 1%nat -> Forall (within 200 0) row ->
  Arianna.log_prior_B (map (add (Num 0.5)) (map (mul (Num 0.001)) row))
  = Ok (Num 0.0).
Proof.
  intros Hl Hq.
  destruct row as [| b [| e l]]; try discriminate.
  inversion Hq as [| ? ? Hb _]; subst.
  apply (shifted_entry 200 0.5), within_bounds in Hb.
  destruct Hb as (rb & Eb & Hb).
  cbn [map]. rewrite Eb.
  apply log_prior_B_inside. unfold in_bounds_B. lra.
Qed.

Lemma start_ensemble (G : Random.RandomState) (nt nw nd : Z)
  (prior : list float64 -> result float64) (st : Random.state G) :
  deviates_bounded G 200 -> (0 <= nt)%Z -> (0 <= nw)%Z -> (0 <= nd)%Z ->
  Random.refuses G [nt; nw; nd] = None ->
  (forall row, length row = Z.to_nat nd -> Forall (within 200 0) row ->
     prior (map (add (Num 0.5)) (map (mul (Num 0.001)) row)) = Ok (Num 0.0)) ->
  exists ens : tensor3,
    fst (Arianna.start nt nw nd st) = Ok ens /\
    length ens = Z.to_nat nt /\
    Forall (fun slice =>
              length slice = Z.to_nat nw /\
              Forall (fun w => prior w = Ok (Num 0.0)) slice) ens.
Proof.
  intros Hg Ht Hw Hd Hfit Hprior.
  unfold Arianna.start, Random.bindM, Random.randn3.
  destruct (Z.ltb_spec nt 0); [lia |].
  destruct (Z.ltb_spec nw 0); [lia |].
  destruct (Z.ltb_spec nd 0); [lia |]. cbn [orb]. rewrite Hfit.
  assert (Hspec :
    length (fst (Random.draw_many
                   (Random.draw_many
                      (Random.draw_many Random.standard_normal (Z.to_nat nd))
                      (Z.to_nat nw)) (Z.to_nat nt) st)) = Z.to_nat nt /\
    Forall (fun slice =>
              length slice = Z.to_nat nw /\
              Forall (fun row => length row = Z.to_nat nd /\
                                 Forall (within 200 0) row) slice)
           (fst (Random.draw_many
                   (Random.draw_many
                      (Random.draw_many Random.standard_normal (Z.to_nat nd))
                      (Z.to_nat nw)) (Z.to_nat nt) st))).
  { apply draw_many_spec. intros st'. now apply randn_rows. }
  destruct (Random.draw_many
              (Random.draw_many
                 (Random.draw_many Random.standard_normal (Z.to_nat nd))
                 (Z.to_nat nw)) (Z.to_nat nt) st) as [noise st'].
  cbn [fst] in *. destruct Hspec as [Hlen Hall].
  eexists. split; [reflexivity |]. unfold map3d, map2d.
  split; [now rewrite !length_map |].
  rewrite map_map. apply Forall_map.
  apply (Forall_impl _ (P := fun slice =>
           length slice = Z.to_nat nw /\
           Forall (fun row => length row = Z.to_nat nd /\
                              Forall (within 200 0) row) slice)); [| exact Hall].
  intros slice [Hsl Hrows]. split; [now rewrite !length_map |].
  rewrite map_map. apply Forall_map.
  apply (Forall_impl _ (P := fun row => length row = Z.to_nat nd /\
                                       Forall (within 200 0) row));
    [| exact Hrows].
  intros row [Hrl Hrq]. now apply Hprior.
Qed.

(** X21.  When no normal deviate exceeds 200 in absolute value, every
    walker of the starting ensembles [start_A] and [start_B] (whatever the
    numbers of temperatures and of walkers, of a shape numpy does not
    refuse) lies inside the bounds of its prior: [log_prior_A], respectively
    [log_prior_B], returns 0.0 on it. *)
Theorem ensembles_start_in_support (G : Random.RandomState) (nt nw : Z)
  (st : Random.state G) :
  deviates_bounded G 200 -> (0 <= nt)%Z -> (0 <= nw)%Z ->
  Random.refuses G [nt; nw; Arianna.ndim_A] = None ->
  Random.refuses G [nt; nw; Arianna.ndim_B] = None ->
  (exists ens : tensor3,
     fst (Arianna.start nt nw Arianna.ndim_A st) = Ok ens /\
     length ens = Z.to_nat nt /\
     Forall (fun slice =>
               length slice = Z.to_nat nw /\
               Forall (fun w => Arianna.log_prior_A w = Ok (Num 0.0)) slice) ens) /\
  (exists ens : tensor3,
     fst (Arianna.start nt nw Arianna.ndim_B st) = Ok ens /\
     length ens = Z.to_nat nt /\
     Forall (fun slice =>
               length slice = Z.to_nat nw /\
               Forall (fun w => Arianna.log_prior_B w = Ok (Num 0.0)) slice) ens).
Proof.
  intros Hg Ht Hw HfitA HfitB. split.
  - apply start_ensemble; try assumption; [unfold Arianna.ndim_A; lia |].
    intros row Hl. apply walker_A_in_support. exact Hl.
  - apply start_ensemble; try assumption; [unfold Arianna.ndim_B; lia |].
    intros row Hl. apply walker_B_in_support. exact Hl.
Qed.

Lemma lcg_deviates_bounded (M : R) : 2 <= M -> deviates_bounded lcg M.
Proof.
  intros HM st. cbn [Random.gauss lcg fst].
  pose proof (Z.mod_pos_bound st 64 ltac:(lia)) as [H0 H1].
  apply IZR_le in H0.
  assert (H2 : IZR (st mod 64) <= 63) by (apply IZR_le; lia).
  unfold Rabs. destruct (Rcase_abs (IZR (st mod 64) / 16 - 2)); lra.
Qed.

Lemma ensembles_start_in_support_witness :
  (exists ens : tensor3,
     fst (Arianna.start_A (G := lcg) 0%Z) = Ok ens /\
     length ens = Z.to_nat 40 /\
     Forall (fun slice =>
               length slice = Z.to_nat 4 /\
               Forall (fun w => Arianna.log_prior_A w = Ok (Num 0.0)) slice) ens) /\
  (exists ens : tensor3,
     fst (Arianna.start_B (G := lcg) 0%Z) = Ok ens /\
     length ens = Z.to_nat 40 /\
     Forall (fun slice =>
               length slice = Z.to_nat 4 /\
               Forall (fun w => Arianna.log_prior_B w = Ok (Num 0.0)) slice) ens).
Proof.
  apply (ensembles_start_in_support lcg 40 4 0%Z).
  - apply lcg_deviates_bounded. lra.
  - lia.
  - lia.
  - reflexivity.
  - reflexivity.
Defined.

Lemma walker_near_optimum (A B P t0 M : R) (row : list float64) :
  length row = 4%nat -> Forall (within M 0) row ->
  Forall2 (within (0.001 * M)) [A; B; P; t0]
    (zip_with add [Num A; Num B; Num P; Num t0] (map (mul (Num 0.001)) row)).
Proof.
  intros Hl Hq.
  destruct row as [| a [| b [| p [| q [| e l]]]]]; try discriminate.
  inversion Hq as [| ? ? Ha Hq1]; subst.
  inversion Hq1 as [| ? ? Hb Hq2]; subst.
  inversion Hq2 as [| ? ? Hp Hq3]; subst.
  inversion Hq3 as [| ? ? Hq' _]; subst.
  apply (shifted_entry M A) in Ha. apply (shifted_entry M B) in Hb.
  apply (shifted_entry M P) in Hp. apply (shifted_entry M t0) in Hq'.
  cbn [map zip_with]. repeat constructor; assumption.
Qed.

Lemma walker_in_support (A B P t0 d : R) (w : list float64) :
  in_bounds_A (A - d) (B - d) (P - d) (t0 - d) ->
  in_bounds_A (A + d) (B + d) (P + d) (t0 + d) ->
  Forall2 (within d) [A; B; P; t0] w ->
  Zeus.log_prior w = Ok (Num 0.0).
Proof.
  intros Hlo Hhi Hw.
  inversion Hw as [| ? a ? ? Ha Hw1]; subst.
  inversion Hw1 as [| ? b ? ? Hb Hw2]; subst.
  inversion Hw2 as [| ? p ? ? Hp Hw3]; subst.
  inversion Hw3 as [| ? q ? ? Hq Hw4]; subst.
  inversion Hw4; subst.
  apply within_bounds in Ha, Hb, Hp, Hq.
  destruct Ha as (ra & Ea & Ha), Hb as (rb & Eb & Hb),
           Hp as (rp & Ep & Hp), Hq as (rq & Eq & Hq).
  rewrite Ea, Eb, Ep, Eq.
  apply log_prior_inside. unfold in_bounds_A in *. lra.
Qed.

Lemma randn_shape {G : Random.RandomState} (k n : nat) (st : Random.state G) :
  length (fst (Random.draw_many (Random.draw_many Random.standard_normal n) k st)) = k /\
  Forall (fun row => length row = n)
         (fst (Random.draw_many (Random.draw_many Random.standard_normal n) k st)).
Proof.
  apply draw_many_spec. intros st'.
  apply (draw_many_spec Random.standard_normal (fun _ => True)). intros _. exact I.
Qed.

(** X22.  The walkers of the ensemble sampler start next to the optimum.
    For any number of walkers that is not negative (and that makes a shape
    numpy does not refuse), [start] succeeds and has one row of four entries
    per walker.  When no normal deviate exceeds
    [M] in absolute value, every entry of a row is within 0.001 [M] of the
    matching entry of the optimum; and if moreover the optimum keeps that
    distance from the bounds of the prior, every walker starts inside them:
    [log_prior] returns 0.0 on it. *)
Theorem walkers_start_near_optimum (G : Random.RandomState) (nw : Z)
  (A B P t0 : R) (st : Random.state G) :
  (0 <= nw)%Z -> Random.refuses G [nw; Zeus.ndim] = None ->
  exists m : matrix,
    fst (Zeus.start [Num A; Num B; Num P; Num t0] nw Zeus.ndim st) = Ok m /\
    length m = Z.to_nat nw /\
    Forall (fun w => length w = 4%nat) m /\
    forall M : R,
      deviates_bounded G M ->
      Forall (fun w => Forall2 (within (0.001 * M)) [A; B; P; t0] w) m /\
      (in_bounds_A (A - 0.001 * M) (B - 0.001 * M) (P - 0.001 * M) (t0 - 0.001 * M) ->
       in_bounds_A (A + 0.001 * M) (B + 0.001 * M) (P + 0.001 * M) (t0 + 0.001 * M) ->
       Forall (fun w => Zeus.log_prior w = Ok (Num 0.0)) m).
Proof.
  intros Hw Hfit.
  unfold Zeus.start, Random.bindM, Random.randn2, Zeus.ndim in *.
  destruct (Z.ltb_spec nw 0); [lia |]. cbn [orb Z.ltb Z.compare].
  rewrite Hfit.
  pose proof (randn_shape (Z.to_nat nw) (Z.to_nat 4) st) as [Hlen Hshape].
  pose proof (fun M => randn_rows M (Z.to_nat nw) (Z.to_nat 4) st) as Hrows.
  destruct (Random.draw_many
              (Random.draw_many Random.standard_normal (Z.to_nat 4))
              (Z.to_nat nw) st) as [noise st'].
  cbn [fst] in *. unfold Random.lift, row_plus_matrix, map2d.
  cbn [length Z.to_nat Pos.to_nat Pos.iter_op Nat.add Nat.eqb fst].
  eexists. split; [reflexivity |].
  split; [now rewrite !length_map |].
  assert (Hnear : forall M, deviates_bounded G M ->
            Forall (fun w => Forall2 (within (0.001 * M)) [A; B; P; t0] w)
              (map (zip_with add [Num A; Num B; Num P; Num t0])
                 (map (map (mul (Num 0.001))) noise))).
  { intros M Hg. destruct (Hrows M Hg) as [_ Hall].
    rewrite map_map. apply Forall_map.
    apply (Forall_impl _ (P := fun row => length row = Z.to_nat 4 /\
                                         Forall (within M 0) row)); [| exact Hall].
    intros row [Hrl Hrq]. now apply walker_near_optimum. }
  split.
  - rewrite map_map. apply Forall_map.
    apply (Forall_impl _ (P := fun row => length row = Z.to_nat 4));
      [| exact Hshape].
    intros row Hrl.
    destruct row as [| a [| b [| p [| q [| e l]]]]]; try discriminate Hrl.
    reflexivity.
  - intros M Hg. split; [now apply Hnear |].
    intros Hlo Hhi.
    apply (Forall_impl _ (P := fun w => Forall2 (within (0.001 * M)) [A; B; P; t0] w));
      [| now apply Hnear].
    intros w Hwn. now apply (walker_in_support A B P t0 (0.001 * M)).
Qed.

Lemma walkers_start_near_optimum_witness :
  exists m : matrix,
    fst (Zeus.start (G := lcg) [Num 4.3; Num 1.0; Num 3.1; Num 0.4] 10 Zeus.ndim 0%Z)
      = Ok m /\
    length m = Z.to_nat 10 /\
    Forall (fun w => length w = 4%nat) m /\
    Forall (fun w => Forall2 (within (0.001 * 2)) [4.3; 1.0; 3.1; 0.4] w) m /\
    Forall (fun w => Zeus.log_prior w = Ok (Num 0.0)) m.
Proof.
  destruct (walkers_start_near_optimum lcg 10 4.3 1.0 3.1 0.4 0%Z
              ltac:(lia) eq_refl)
    as (m & Hm & Hlen & Hshape & Hall).
  destruct (Hall 2 (lcg_deviates_bounded 2 ltac:(lra))) as [Hnear Hin].
  exists m.
  split; [exact Hm | split; [exact Hlen | split; [exact Hshape | split]]].
  - exact Hnear.
  - apply Hin; unfold in_bounds_A; lra.
Defined.
